(** * yolo_detection_docker: the detection loop and the location reader

    A shallow embedding of [scripts/yolo_detection_self.py] and
    [scripts/detection_reader.py].  Python dictionaries are finite maps
    with string keys, Python integers are [Z], Python floats are binary64
    values written as dyadic numbers, [print] and the calls to the
    collaborators (YOLO, OpenCV, requests) are events of a trace, and
    [sys.exit] and exceptions are results of an error monad. *)

From Stdlib Require Import ZArith QArith Lia.
From stdpp Require Import gmap strings list fin_maps.

Local Open Scope Z_scope.

(** ** Python values *)

(** A Python float is an IEEE binary64 number; a finite one is
    [m * 2^e]. *)
Inductive pyfloat : Type :=
  | Finite (m e : Z)
  | PosInf
  | NegInf
  | NaN.

(** The values that travel through the configuration document, the JSON
    bodies and the result envelope. *)
#[warnings="-register-all"]
Inductive pyval : Type :=
  | PNone
  | PBool (b : bool)
  | PInt (z : Z)
  | PFloat (f : pyfloat)
  | PStr (s : string)
  | PList (l : list pyval)
  | PDict (d : gmap string pyval).

(** The exceptions the modelled code can meet. *)
Inductive exn : Type :=
  | ZeroDivisionError
  | OverflowError
  | ValueError
  | AttributeError.

(** ** Binary64 arithmetic used by the area test *)

Module B64.

(** Nearest integer to [n / d], ties to the even one ([0 <= n], [0 < d]). *)
Definition rne (n d : Z) : Z :=
  let q := n / d in
  let r := n mod d in
  if 2 * r <? d then q
  else if d <? 2 * r then q + 1
  else if Z.even q then q else q + 1.

(** [floor (log2 (n / d))] for positive [n] and [d]. *)
Definition ilog2_quot (n d : Z) : Z :=
  let k := Z.log2 n - Z.log2 d in
  if n * 2 ^ Z.max 0 (- k) <? d * 2 ^ Z.max 0 k then k - 1 else k.

(** The binary64 number nearest to [n / d] for positive [n] and [d]:
    53 bits of precision, least exponent -1074, [None] when the result
    is beyond the largest finite number. *)
Definition round_quot (n d : Z) : option (Z * Z) :=
  let e := Z.max (ilog2_quot n d - 52) (- 1074) in
  let m := if 0 <=? e then rne n (d * 2 ^ e) else rne (n * 2 ^ (- e)) d in
  if (971 <? e) || ((e =? 971) && (2 ^ 53 <=? m)) then None
  else Some (m, e).

(** Order on finite numbers [m1 * 2^e1 < m2 * 2^e2]. *)
Definition lt_finite (m1 e1 m2 e2 : Z) : bool :=
  let k := Z.min e1 e2 in
  m1 * 2 ^ (e1 - k) <? m2 * 2 ^ (e2 - k).

(** Python's [x < y] on floats. *)
Definition ltb (x y : pyfloat) : bool :=
  match x, y with
  | NaN, _ | _, NaN => false
  | Finite m1 e1, Finite m2 e2 => lt_finite m1 e1 m2 e2
  | NegInf, NegInf => false
  | NegInf, _ => true
  | _, PosInf => match x with PosInf => false | _ => true end
  | _, _ => false
  end.

(** The exact value of a finite float as a rational. *)
Definition to_Q (m e : Z) : Q :=
  if 0 <=? e then inject_Z (m * 2 ^ e)
  else Qmake m (Z.to_pos (2 ^ (- e))).

End B64.

(** Python's [a / b] on integers: the correctly rounded quotient, or
    [ZeroDivisionError], or [OverflowError] when it does not fit. *)
Definition int_true_divide (a b : Z) : exn + pyfloat :=
  if b =? 0 then inl ZeroDivisionError
  else if a =? 0 then inr (Finite 0 0)
  else
    match B64.round_quot (Z.abs a) (Z.abs b) with
    | None => inl OverflowError
    | Some (m, e) =>
        inr (Finite (if Bool.eqb (a <? 0) (b <? 0) then m else - m) e)
    end.

(** The float literal [0.9]: the binary64 number nearest to 9/10. *)
Definition lit_0_9 : pyfloat :=
  match B64.round_quot 9 10 with
  | Some (m, e) => Finite m e
  | None => PosInf
  end.

(** Python's [x - y] on floats: the exact difference of two finite
    numbers rounded to binary64, an infinity when it is out of range. *)
Definition float_sub (x y : pyfloat) : pyfloat :=
  match x, y with
  | NaN, _ | _, NaN => NaN
  | PosInf, PosInf | NegInf, NegInf => NaN
  | PosInf, _ | _, NegInf => PosInf
  | NegInf, _ | _, PosInf => NegInf
  | Finite m1 e1, Finite m2 e2 =>
      let k := Z.min e1 e2 in
      let n := m1 * 2 ^ (e1 - k) - m2 * 2 ^ (e2 - k) in
      if n =? 0 then Finite 0 0
      else
        let r := if 0 <=? k then B64.round_quot (Z.abs n * 2 ^ k) 1
                 else B64.round_quot (Z.abs n) (2 ^ (- k)) in
        match r with
        | Some (m, e) => Finite (if n <? 0 then - m else m) e
        | None => if n <? 0 then NegInf else PosInf
        end
  end.

(** Python's [x > z] for a float [x] and an integer [z] (exact). *)
Definition float_gt_int (x : pyfloat) (z : Z) : bool :=
  B64.ltb (Finite z 0) x.

(** Python's [int(x)] on a float: truncation toward zero. *)
Definition int_of_float (x : pyfloat) : exn + Z :=
  match x with
  | Finite m e => inr (if 0 <=? e then m * 2 ^ e else Z.quot m (2 ^ (- e)))
  | PosInf | NegInf => inl OverflowError
  | NaN => inl ValueError
  end.

(** Truth value of a Python object, as [if x:] tests it. *)
Definition truthy (v : pyval) : bool :=
  match v with
  | PNone => false
  | PBool b => b
  | PInt z => negb (z =? 0)
  | PFloat (Finite m _) => negb (m =? 0)
  | PFloat _ => true
  | PStr s => negb (String.eqb s "")
  | PList l => match l with [] => false | _ => true end
  | PDict d => negb (bool_decide (d = ∅))
  end.

(** [v == s] for a string [s]. *)
Definition py_eq_str (v : pyval) (s : string) : bool :=
  match v with
  | PStr t => String.eqb t s
  | _ => false
  end.

(** [v in l] for a list of strings [l]. *)
Definition py_in_strs (v : pyval) (l : list string) : bool :=
  existsb (py_eq_str v) l.

(** ** Frames, detector output and the trace *)

(** [frame.shape[:2]]. *)
Record frame : Type := { frame_height : Z; frame_width : Z }.

(** [box.xyxy[0].tolist()]: four floats. *)
Record raw_box : Type := { rx1 : pyfloat; ry1 : pyfloat; rx2 : pyfloat; ry2 : pyfloat }.

(** One element of [detector.predict(...)]; [None] when it has no
    [boxes] attribute or the attribute is [None]. *)
Record yolo_result : Type := { boxes : option (list raw_box) }.

(** Console output and calls to the collaborators, in program order. *)
Inductive event : Type :=
  | LogPosted (url : pyval)
  | LogPostFailed (url : pyval)
  | LogConfigMissing (key : string)
  | LogAvailable (keys : list string)
  | LogStarting (url : string)
  | LogNotInArea (path : pyval)
  | LogResuming (path : pyval)
  | LogJsonData (json : gmap string pyval)
  | LogFrameSummary (count : Z) (people : Z)
  | LogReadFailed
  | LogReconnectFailed
  | LogTotalFrames (count : Z)
  | LogConfigFileError
  | CallPost (json : gmap string pyval) (url : pyval) (timeout : pyval)
  | CallPredict (fr : frame) (conf : pyval) (classes : pyval)
  | CallOpenStream (url : string)
  | CallLoadModel (path : pyval)
  | CallRelease
  | CallSleep (seconds : pyval)
  | LogNoDetections
  | LogServerError
  | LogHttpError (status_code : Z)
  | LogRequestFailed
  | LogJsonParseFailed
  | LogNoPathname
  | LogDetectionData (detection : pyval)
  | LogReaderStarted
  | LogReaderError (e : exn)
  | LogReaderStopped
  | CallGet
  | LockAcquire
  | LockRelease
  | ReadAttr (name : string)
  | WriteAttr (name : string).

(** How a computation ends: normally, by [sys.exit], or by an exception
    that nothing catches. *)
Inductive outcome (A : Type) : Type :=
  | Done (a : A)
  | Exit (code : Z)
  | Raise (e : exn).
Arguments Done {A} a.
Arguments Exit {A} code.
Arguments Raise {A} e.

(** Computations over mutable locals [S] that write a trace. *)
Definition M (S A : Type) : Type := S -> list event * S * outcome A.

Definition ret {S A} (a : A) : M S A := fun s => ([], s, Done a).

Definition bind {S A B} (m : M S A) (k : A -> M S B) : M S B :=
  fun s =>
    match m s with
    | (l1, s1, Done a) =>
        match k a s1 with
        | (l2, s2, r) => (l1 ++ l2, s2, r)
        end
    | (l1, s1, Exit c) => (l1, s1, Exit c)
    | (l1, s1, Raise e) => (l1, s1, Raise e)
    end.

Notation "'do' x <- m ; k" := (bind m (fun x => k))
  (at level 10, x pattern, m at level 100, k at level 200).
Notation "m ;; k" := (bind m (fun _ => k))
  (at level 100, k at level 200, right associativity).

Definition emit {S} (ev : event) : M S unit := fun s => ([ev], s, Done tt).
Definition sys_exit {S A} (code : Z) : M S A := fun s => ([], s, Exit code).
Definition get {S} : M S S := fun s => ([], s, Done s).
Definition modify {S} (f : S -> S) : M S unit := fun s => ([], f s, Done tt).
Definition lift {S A} (r : exn + A) : M S A :=
  fun s => ([], s, match r with inl e => Raise e | inr a => Done a end).

(** ** [yolo_detection_self.py] *)

(** [post_json_data]: one POST; the reply decides which line is printed
    and which boolean is returned. *)
Definition post_json_data {S} (post_ok : bool)
    (json_data : gmap string pyval) (post_url timeout : pyval) : M S bool :=
  emit (CallPost json_data post_url timeout);;
  if post_ok then emit (LogPosted post_url);; ret true
  else emit (LogPostFailed post_url);; ret false.

(** The dictionary appended to [detections] for a kept box. *)
Definition box_entry (x1 y1 x2 y2 : Z) : pyval :=
  PDict (<["height" := PInt (y2 - y1)]>
        (<["width" := PInt (x2 - x1)]>
        (<["y2" := PInt y2]>
        (<["x2" := PInt x2]>
        (<["y1" := PInt y1]>
        (<["x1" := PInt x1]> ∅)))))).

(** The body of [for box in boxes]. *)
Definition detection_box {S} (fr : frame)
    (acc : list pyval * list (list Z)) (box : raw_box)
    : M S (list pyval * list (list Z)) :=
  do x1 <- lift (int_of_float (rx1 box));
  do y1 <- lift (int_of_float (ry1 box));
  do x2 <- lift (int_of_float (rx2 box));
  do y2 <- lift (int_of_float (ry2 box));
  do ratio <- lift (int_true_divide ((x2 - x1) * (y2 - y1))
                                    (frame_height fr * frame_width fr));
  if B64.ltb ratio lit_0_9
  then ret (acc.1 ++ [box_entry x1 y1 x2 y2], acc.2 ++ [[x1; x2; y1; y2]])
  else ret acc.

Fixpoint detection_boxes {S} (fr : frame)
    (acc : list pyval * list (list Z)) (bs : list raw_box)
    : M S (list pyval * list (list Z)) :=
  match bs with
  | [] => ret acc
  | box :: bs =>
      do acc' <- detection_box fr acc box;
      detection_boxes fr acc' bs
  end.

(** The body of [for result in results]. *)
Fixpoint detection_results {S} (fr : frame)
    (acc : list pyval * list (list Z)) (results : list yolo_result)
    : M S (list pyval * list (list Z)) :=
  match results with
  | [] => ret acc
  | result :: results =>
      do acc' <- match boxes result with
                 | Some bs => detection_boxes fr acc bs
                 | None => ret acc
                 end;
      detection_results fr acc' results
  end.

(** [detection]; [results] is what [detector.predict] answers. *)
Definition detection {S} (results : list yolo_result) (fr : frame)
    (json_tmp : gmap string pyval) (conf_threshold class_list : pyval)
    : M S (gmap string pyval * list (list Z)) :=
  emit (CallPredict fr conf_threshold class_list);;
  do acc <- detection_results fr ([], []) results;
  ret (<["bounding_box" := PList acc.1]> json_tmp, acc.2).

(** [get_config]: the entry [key] of section [config_type], or exit
    status 1 after printing the keys the section has. *)
Definition get_config {S} (config_type key : string)
    (config : gmap string (gmap string pyval)) : M S pyval :=
  let config_list := default ∅ (config !! config_type) in
  match config_list !! key with
  | None =>
      emit (LogConfigMissing key);;
      emit (LogAvailable (map_to_list config_list).*1);;
      sys_exit 1
  | Some v => ret v
  end.

(** [get_robot_pose]: the dictionary display, entries inserted from left
    to right. *)
Definition get_robot_pose : gmap string pyval :=
  <["y" := PInt 0]>
  (<["p" := PInt 0]>
  (<["r" := PInt 0]>
  (<["z" := PInt 0]>
  (<["y" := PInt 0]>
  (<["x" := PInt 0]> ∅))))).

(** The locals of [main] that the loop changes. *)
Record loop_state : Type := {
  frame_count : Z;
  previous_detection : pyfloat;
  detection_period : Z;
  posted_warning : bool
}.

Definition set_frame_count (n : Z) (s : loop_state) : loop_state :=
  {| frame_count := n; previous_detection := previous_detection s;
     detection_period := detection_period s; posted_warning := posted_warning s |}.
Definition set_previous_detection (t : pyfloat) (s : loop_state) : loop_state :=
  {| frame_count := frame_count s; previous_detection := t;
     detection_period := detection_period s; posted_warning := posted_warning s |}.
Definition set_detection_period (p : Z) (s : loop_state) : loop_state :=
  {| frame_count := frame_count s; previous_detection := previous_detection s;
     detection_period := p; posted_warning := posted_warning s |}.
Definition set_posted_warning (b : bool) (s : loop_state) : loop_state :=
  {| frame_count := frame_count s; previous_detection := previous_detection s;
     detection_period := detection_period s; posted_warning := b |}.

(** The locals of [main] that the loop only reads. *)
Record settings : Type := {
  model_type : string;
  stream_url : string;
  config : gmap string (gmap string pyval);
  post_endpoint : pyval;
  api_timeout : pyval
}.

(** What the world answers during one pass of [while True]. *)
Record iter_input : Type := {
  in_pathname : pyval;             (* listener.pathname *)
  in_read : option frame;          (* video_cap.read(): None when not success *)
  in_time_check : pyfloat;         (* time.time() in the cadence test *)
  in_time_stamp : pyfloat;         (* time.time() stored in previous_detection *)
  in_now : string;                 (* datetime.now(tz).strftime(...) *)
  in_results : list yolo_result;   (* detector.predict(...) *)
  in_post_ok : bool;               (* did the POST succeed *)
  in_reopened : bool               (* video_cap.isOpened() after reconnecting *)
}.

Definition valid_path : list string := ["a"; "b"].

(** The model types whose class list is read from the configuration. *)
Definition class_model_types : list string :=
  ["bicylce"; "pets"; "vehicle"; "person"].

Inductive control : Type := Continue | Break.

(** The cadence test
    [(time.time() - previous_detection) > detection_period]. *)
Definition due (i : iter_input) (st : loop_state) : bool :=
  float_gt_int (float_sub (in_time_check i) (previous_detection st))
               (detection_period st).

(** The statements of the loop body that follow the location test: the
    envelope is built, the detector runs, the result is posted when a box
    is left, and the cadence is set. *)
Definition detection_cycle (cfg : settings) (i : iter_input) (fr : frame)
    : M loop_state control :=
  do robot <- get_config "robot" (stream_url cfg) (config cfg);
  do camera <- get_config "camera" (stream_url cfg) (config cfg);
  let detection_tmp : gmap string pyval :=
    <["pose" := PDict get_robot_pose]>
    (<["camera" := camera]>
    (<["robot" := robot]>
    (<["time" := PStr (in_now i)]>
    (<["model_type" := PStr (model_type cfg)]> ∅)))) in
  do class_list <-
    (if bool_decide (model_type cfg ∈ class_model_types)
     then get_config "classes" (model_type cfg) (config cfg)
     else ret (PList [PInt 0]));
  do conf <- get_config "confidence" (model_type cfg) (config cfg);
  do (frame_detection, bbox_list) <-
    detection (in_results i) fr detection_tmp conf class_list;
  (if negb (Z.of_nat (length bbox_list) =? 0) then
     let frame_detection :=
       <["people_count" := PInt (Z.of_nat (length bbox_list))]>
         frame_detection in
     emit (LogJsonData frame_detection);;
     post_json_data (in_post_ok i) frame_detection
       (post_endpoint cfg) (api_timeout cfg);;
     modify (set_detection_period 15)
   else modify (set_detection_period 7));;
  do st' <- get;
  emit (LogFrameSummary (frame_count st') (Z.of_nat (length bbox_list)));;
  modify (set_previous_detection (in_time_stamp i));;
  ret Continue.

(** One pass of the [while True] loop of [main]. *)
Definition iteration (cfg : settings) (i : iter_input) : M loop_state control :=
  emit (ReadAttr "pathname");;
  let path_name := in_pathname i in
  match in_read i with
  | Some fr =>
      modify (fun s => set_frame_count (frame_count s + 1) s);;
      do st <- get;
      if due i st then
        if negb (py_in_strs path_name valid_path) then
          (if negb (posted_warning st) then
             emit (LogNotInArea path_name);;
             modify (set_posted_warning true)
           else ret tt);;
          modify (set_previous_detection (in_time_stamp i));;
          ret Continue
        else
          (if posted_warning st then
             emit (LogResuming path_name);;
             modify (set_posted_warning false)
           else ret tt);;
          detection_cycle cfg i fr
      else ret Continue
  | None =>
      emit LogReadFailed;;
      emit CallRelease;;
      emit (CallSleep (PInt 100));;
      emit (CallOpenStream (stream_url cfg));;
      if in_reopened i then ret Continue
      else emit LogReconnectFailed;; ret Break
  end.

(** The [while True] loop over the answers [ins]; it stops at [break],
    at [sys.exit] and at an exception, and answers [Continue] when it is
    still running after the answers are used up. *)
Fixpoint main_loop (cfg : settings) (ins : list iter_input) : M loop_state control :=
  match ins with
  | [] => ret Continue
  | i :: ins =>
      do c <- iteration cfg i;
      match c with
      | Continue => main_loop cfg ins
      | Break => ret Break
      end
  end.

(** What [load_model_config] finds on disk. *)
Inductive config_file : Type :=
  | FileMissing
  | FileInvalid
  | FileOk (config : gmap string (gmap string pyval)).

Definition load_model_config {S} (file : config_file)
    : M S (gmap string (gmap string pyval)) :=
  match file with
  | FileOk config => ret config
  | FileMissing | FileInvalid => emit LogConfigFileError;; sys_exit 1
  end.

(** [main] up to the loop: everything before [try]. *)
Definition startup (file : config_file) (type stream : string) : M unit settings :=
  do config <- load_model_config file;
  let api_config := default ∅ (config !! "api") in
  let post_endpoint :=
    default (PStr "http://post-server:8080/api/detections")
            (api_config !! "post_endpoint") in
  let api_timeout := default (PInt 10) (api_config !! "timeout") in
  emit (CallOpenStream stream);;
  emit (LogStarting stream);;
  do model_path <- get_config "models" type config;
  emit (CallLoadModel model_path);;
  ret {| model_type := type; stream_url := stream; config := config;
         post_endpoint := post_endpoint; api_timeout := api_timeout |}.

Definition initial_state (start : pyfloat) : loop_state :=
  {| frame_count := 0; previous_detection := start;
     detection_period := 3; posted_warning := false |}.

(** [main] over the answers [ins]: start-up, the loop, and the [finally]
    clause, which runs however the loop ends; [Done Continue] means the
    loop is still running when the answers are used up.  A keyboard
    interrupt, which can arrive at any point, is not part of the
    answers. *)
Definition main (file : config_file) (type stream : string)
    (start : pyfloat) (ins : list iter_input) : list event * outcome control :=
  match startup file type stream tt with
  | (l0, _, Done cfg) =>
      match main_loop cfg ins (initial_state start) with
      | (l1, _, Done Continue) => (l0 ++ l1, Done Continue)
      | (l1, st, r) =>
          (l0 ++ l1 ++ [LogTotalFrames (frame_count st); CallRelease], r)
      end
  | (l0, _, Exit c) => (l0, Exit c)
  | (l0, _, Raise e) => (l0, Raise e)
  end.

(** ** [detection_reader.py] *)

(** The attributes of a [DetectionReader] that change while it runs. *)
Record reader : Type := {
  running : bool;
  last_detection : pyval;
  pathname : pyval
}.

Definition set_last_detection (v : pyval) (r : reader) : reader :=
  {| running := running r; last_detection := v; pathname := pathname r |}.
Definition set_pathname (v : pyval) (r : reader) : reader :=
  {| running := running r; last_detection := last_detection r; pathname := v |}.

(** The attributes right after [__init__]. *)
Definition new_reader : reader :=
  {| running := true; last_detection := PNone; pathname := PStr "" |}.

(** What [requests.get] answers: a transport failure (any
    [RequestException]), or a response with its status code and its body,
    [None] when the body is not JSON. *)
Inductive http_reply : Type :=
  | TransportError
  | Reply (status_code : Z) (body : option pyval).

(** [get_detection].  A body that is not JSON makes [response.json()]
    raise; the error is caught by one of the two [except] clauses (which
    one depends on the version of [requests]), a line is printed and
    [None] is returned.  [data.get] exists only on a dictionary. *)
Definition get_detection {S} (reply : http_reply) : M S pyval :=
  emit CallGet;;
  match reply with
  | TransportError => emit LogRequestFailed;; ret PNone
  | Reply status_code body =>
      if status_code =? 200 then
        match body with
        | None => emit LogJsonParseFailed;; ret PNone
        | Some (PDict data) =>
            if py_eq_str (default PNone (data !! "status")) "success" then
              match data !! "detection" with
              | Some detection => ret detection
              | None => emit LogNoDetections;; ret PNone
              end
            else emit LogServerError;; ret PNone
        | Some _ => lift (inl AttributeError)
        end
      else emit (LogHttpError status_code);; ret PNone
  end.

(** [extract_pathname]; it writes [self.pathname] without the lock. *)
Definition extract_pathname (detection : pyval) : M reader pyval :=
  match detection with
  | PNone => ret PNone
  | PDict d =>
      let v := default PNone (d !! "InPathName") in
      emit (WriteAttr "pathname");;
      modify (set_pathname v);;
      ret v
  | _ => lift (inl AttributeError)
  end.

(** One pass of the [while self.running] loop of [_reading_loop]. *)
Definition reading_pass (poll_interval : pyval) (reply : http_reply)
    : M reader unit :=
  do detection <- get_detection reply;
  (if truthy detection then
     do pathname <- extract_pathname detection;
     if truthy pathname then
       emit LockAcquire;;
       emit (WriteAttr "last_detection");;
       modify (set_last_detection detection);;
       emit LockRelease
     else
       emit LogNoPathname;;
       emit (LogDetectionData detection)
   else ret tt);;
  emit (CallSleep poll_interval).

(** The passes of [while self.running] over the replies. *)
Fixpoint reading_passes (poll_interval : pyval) (replies : list http_reply)
    : M reader unit :=
  match replies with
  | [] => ret tt
  | reply :: replies =>
      do r <- get;
      if running r then
        reading_pass poll_interval reply;;
        reading_passes poll_interval replies
      else ret tt
  end.

(** [_reading_loop]: an exception ends the loop and is printed, and the
    [finally] clause prints that the thread stopped. *)
Definition _reading_loop (poll_interval : pyval) (replies : list http_reply)
    (r : reader) : list event * reader :=
  match (emit LogReaderStarted;; reading_passes poll_interval replies) r with
  | (l, r', Raise e) => (l ++ [LogReaderError e; LogReaderStopped], r')
  | (l, r', _) => (l ++ [LogReaderStopped], r')
  end.

(** [get_last_detection]: the read under [with self.lock]. *)
Definition get_last_detection : M reader pyval :=
  emit LockAcquire;;
  emit (ReadAttr "last_detection");;
  do r <- get;
  emit LockRelease;;
  ret (last_detection r).

(** ** Lock discipline on a trace *)

(** The attribute accesses of a trace that happen while the lock is not
    held; [held] says whether it is held at the start. *)
Fixpoint unlocked_accesses (held : bool) (tr : list event) : list event :=
  match tr with
  | [] => []
  | LockAcquire :: tr => unlocked_accesses true tr
  | LockRelease :: tr => unlocked_accesses false tr
  | ReadAttr a :: tr =>
      if held then unlocked_accesses held tr
      else ReadAttr a :: unlocked_accesses held tr
  | WriteAttr a :: tr =>
      if held then unlocked_accesses held tr
      else WriteAttr a :: unlocked_accesses held tr
  | _ :: tr => unlocked_accesses held tr
  end.

(** ** Notions used to state the properties *)

Definition is_finite (x : pyfloat) : bool :=
  match x with Finite _ _ => true | _ => false end.

(** The integer [int(x)] of a finite float. *)
Definition float_trunc (x : pyfloat) : Z :=
  match int_of_float x with inr z => z | inl _ => 0 end.

(** A box in whole pixels, [(x1, y1, x2, y2)]. *)
Definition pixel_box : Type := Z * Z * Z * Z.

Definition truncate_box (b : raw_box) : pixel_box :=
  (float_trunc (rx1 b), float_trunc (ry1 b), float_trunc (rx2 b), float_trunc (ry2 b)).

Definition box_area (q : pixel_box) : Z :=
  let '(x1, y1, x2, y2) := q in (x2 - x1) * (y2 - y1).

(** The area of the box is below nine tenths of the area of the frame,
    in exact arithmetic. *)
Definition below_nine_tenths (fr : frame) (q : pixel_box) : bool :=
  10 * box_area q <? 9 * (frame_height fr * frame_width fr).

Definition entry_of (q : pixel_box) : pyval :=
  let '(x1, y1, x2, y2) := q in box_entry x1 y1 x2 y2.

Definition coords_of (q : pixel_box) : list Z :=
  let '(x1, y1, x2, y2) := q in [x1; x2; y1; y2].

(** Every box of every result, in the order the loops visit them. *)
Definition all_boxes (results : list yolo_result) : list raw_box :=
  concat (map (fun r => default [] (boxes r)) results).

(** A frame that has pixels, fewer than [2^51] of them. *)
Definition frame_ok (fr : frame) : bool :=
  (0 <? frame_height fr) && (0 <? frame_width fr)
  && (frame_height fr * frame_width fr <? 2 ^ 51).

(** A box with finite coordinates whose area in pixels is below [2^1023]
    in absolute value. *)
Definition box_ok (b : raw_box) : bool :=
  is_finite (rx1 b) && is_finite (ry1 b) && is_finite (rx2 b) && is_finite (ry2 b)
  && (Z.abs (box_area (truncate_box b)) <? 2 ^ 1023).

(** The exact area of a box with finite coordinates divided by the exact
    area of the frame. *)
Definition exact_ratio (fr : frame) (b : raw_box) : Q :=
  match rx1 b, ry1 b, rx2 b, ry2 b with
  | Finite m1 e1, Finite m2 e2, Finite m3 e3, Finite m4 e4 =>
      ((B64.to_Q m3 e3 - B64.to_Q m1 e1) * (B64.to_Q m4 e4 - B64.to_Q m2 e2))
      / inject_Z (frame_height fr * frame_width fr)
  | _, _, _, _ => 0
  end%Q.

Definition outcome_map {A B} (f : A -> B) (r : outcome A) : outcome B :=
  match r with
  | Done a => Done (f a)
  | Exit c => Exit c
  | Raise e => Raise e
  end.

(** The [bbox_list] that [detection] returns for a frame and the answer
    of the detector: the boxes that are left after the area test. *)
Definition surviving_boxes (fr : frame) (results : list yolo_result)
    : outcome (list (list Z)) :=
  outcome_map snd (detection results fr ∅ PNone PNone tt).2.

(** The entry [config[section][key]], if there is one. *)
Definition config_entry (cfg : settings) (section key : string) : option pyval :=
  default ∅ (config cfg !! section) !! key.

(** What [get_config] prints before it exits. *)
Definition missing_diagnostic (cfg : settings) (section key : string) : list event :=
  [LogConfigMissing key;
   LogAvailable (map_to_list (default ∅ (config cfg !! section))).*1].

(** The envelope before [detection] fills in the boxes. *)
Definition detection_tmp_of (cfg : settings) (i : iter_input)
    (robot camera : pyval) : gmap string pyval :=
  <["pose" := PDict get_robot_pose]>
  (<["camera" := camera]>
  (<["robot" := robot]>
  (<["time" := PStr (in_now i)]>
  (<["model_type" := PStr (model_type cfg)]> ∅)))).

(** The location read in this pass is one of the approved ones. *)
Definition approved (i : iter_input) : bool :=
  py_in_strs (in_pathname i) valid_path.

(** The trace of a run. *)
Definition trace_of {S A} (r : list event * S * outcome A) : list event := r.1.1.

(** The locals at the end of a run. *)
Definition state_of {S A} (r : list event * S * outcome A) : S := r.1.2.

Definition is_post (e : event) : bool :=
  match e with CallPost _ _ _ => true | _ => false end.
Definition is_predict (e : event) : bool :=
  match e with CallPredict _ _ _ => true | _ => false end.
Definition is_not_in_area (e : event) : bool :=
  match e with LogNotInArea _ => true | _ => false end.
Definition is_resuming (e : event) : bool :=
  match e with LogResuming _ => true | _ => false end.

(** How many events of a trace satisfy [p]. *)
Definition count (p : event -> bool) (tr : list event) : nat :=
  length (List.filter p tr).

(** The reading of the threshold rule on the boxes as the detector
    returns them: a single box is left out of [bounding_box] exactly when
    its exact area ratio is at least 9/10. *)
Definition excluded_iff_ratio_at_least_nine_tenths (fr : frame) (b : raw_box) : Prop :=
  forall tr json bbox_list out,
    detection [ {| boxes := Some [b] |} ] fr ∅ PNone PNone tt
      = (tr, tt, Done (json, bbox_list)) ->
    json !! "bounding_box" = Some (PList out) ->
    ((9 # 10 <= exact_ratio fr b)%Q <-> out = []).

(** The reading of the class rule as a property of one pass: the class
    list handed to the detector is the entry of the model type in the
    [classes] section. *)
Definition classes_come_from_config (cfg : settings) (i : iter_input)
    (st : loop_state) : Prop :=
  forall fr conf cl,
    In (CallPredict fr conf cl) (trace_of (iteration cfg i st)) ->
    config_entry cfg "classes" (model_type cfg) = Some cl.

(** The pass reads a frame and finds the cadence elapsed, so that it
    goes on to test the location. *)
Definition reaches_gating (i : iter_input) (st : loop_state) : bool :=
  match in_read i with
  | Some _ => due i st
  | None => false
  end.

(** Some pass of the loop over [ins], started in [st], reaches the
    location test. *)
Fixpoint reaches_gating_in (cfg : settings) (ins : list iter_input)
    (st : loop_state) : bool :=
  match ins with
  | [] => false
  | i :: ins =>
      reaches_gating i st ||
      match iteration cfg i st with
      | (_, st1, Done Continue) => reaches_gating_in cfg ins st1
      | _ => false
      end
  end.

(** The reading of the warning rule on passes: a stretch of passes at
    locations outside the approved ones, which follows a pass at an
    approved location, logs the warning exactly once. *)
Definition warned_once_per_unapproved_stretch (cfg : settings)
    (start : pyfloat) : Prop :=
  forall before i stretch,
    approved i = true ->
    stretch <> [] ->
    Forall (fun j => approved j = false) stretch ->
    (main_loop cfg (before ++ [i]) (initial_state start)).2 = Done Continue ->
    count is_not_in_area
      (trace_of (main_loop cfg stretch
                   (state_of (main_loop cfg (before ++ [i]) (initial_state start)))))
    = 1%nat.

(** The entries that the specification calls required: the model path,
    the robot and camera metadata, the class list and the confidence
    threshold. *)
Definition required_entries (type stream : string) : list (string * string) :=
  [("models", type); ("robot", stream); ("camera", stream);
   ("classes", type); ("confidence", type)].

(** The reading of the configuration rule: when a required entry is
    missing, start-up ends with a non-zero exit status. *)
Definition missing_entry_exits_at_startup
    (config : gmap string (gmap string pyval)) (type stream : string) : Prop :=
  forall section key,
    In (section, key) (required_entries type stream) ->
    default ∅ (config !! section) !! key = None ->
    exists tr c, startup (FileOk config) type stream tt = (tr, tt, Exit c) /\ c <> 0.

(** An entry that a detection cycle reads is missing. *)
Definition cycle_entry_missing (cfg : settings) : Prop :=
  config_entry cfg "robot" (stream_url cfg) = None \/
  config_entry cfg "camera" (stream_url cfg) = None \/
  (model_type cfg ∈ class_model_types /\
   config_entry cfg "classes" (model_type cfg) = None) \/
  config_entry cfg "confidence" (model_type cfg) = None.

(** The replies for which [get_detection] has a branch that prints a
    diagnostic and returns [None]: a status code other than 200, a body
    that is not JSON, a status field other than "success", and no
    detection object.  The second argument is the line printed. *)
Inductive fetch_rejected : http_reply -> event -> Prop :=
  | rejected_status_code code body :
      code <> 200 -> fetch_rejected (Reply code body) (LogHttpError code)
  | rejected_not_json :
      fetch_rejected (Reply 200 None) LogJsonParseFailed
  | rejected_status_field data :
      py_eq_str (default PNone (data !! "status")) "success" = false ->
      fetch_rejected (Reply 200 (Some (PDict data))) LogServerError
  | rejected_no_detection data :
      py_eq_str (default PNone (data !! "status")) "success" = true ->
      data !! "detection" = None ->
      fetch_rejected (Reply 200 (Some (PDict data))) LogNoDetections.

(** A successful reply whose detection object [det] has no identifier
    field. *)
Definition no_identifier (reply : http_reply) (det : gmap string pyval) : Prop :=
  exists data,
    reply = Reply 200 (Some (PDict data)) /\
    py_eq_str (default PNone (data !! "status")) "success" = true /\
    data !! "detection" = Some (PDict det) /\
    det !! "InPathName" = None.

(** The lines that report a failed fetch. *)
Definition is_diagnostic (e : event) : bool :=
  match e with
  | LogNoDetections | LogServerError | LogHttpError _ | LogRequestFailed
  | LogJsonParseFailed | LogNoPathname | LogDetectionData _ => true
  | _ => false
  end.

(** The reading of the fetch rule on one pass of the reader: in each of
    the five failure cases the pass ends normally, stores no detection
    and prints a diagnostic. *)
Definition fetch_failures_absent_and_logged : Prop :=
  forall reply interval r,
    (exists diag, fetch_rejected reply diag) \/ (exists det, no_identifier reply det) ->
    let res := reading_pass interval reply r in
    res.2 = Done tt /\
    last_detection (state_of res) = last_detection r /\
    existsb is_diagnostic (trace_of res) = true.

(** ** Sample data *)

(** A successful reply with an empty detection object. *)
Definition empty_detection_reply : http_reply :=
  Reply 200 (Some (PDict {[ "status" := PStr "success"; "detection" := PDict ∅ ]})).

(** A successful reply that names the location "a". *)
Definition sample_reply : http_reply :=
  Reply 200 (Some (PDict {[ "status" := PStr "success";
                            "detection" := PDict {[ "InPathName" := PStr "a" ]} ]})).


Definition sample_config (type : string) : gmap string (gmap string pyval) :=
  <["confidence" := {[type := PFloat (Finite 1 (- 1))]}]>
  (<["classes" := {[type := PList [PInt 0; PInt 1]]}]>
  (<["camera" := {["rtsp://cam" := PStr "front"]}]>
  (<["robot" := {["rtsp://cam" := PStr "robot-1"]}]>
  (<["models" := {[type := PStr "model.pt"]}]> ∅)))).

Definition sample_settings (type : string) : settings :=
  {| model_type := type; stream_url := "rtsp://cam";
     config := sample_config type;
     post_endpoint := PStr "http://post-server:8080/api/detections";
     api_timeout := PInt 10 |}.

(** A frame of 640 by 480 pixels with one box of 256 by 240 pixels, read
    at time [t] while the location is [path]. *)
Definition sample_pass (path : string) (t : Z) : iter_input :=
  {| in_pathname := PStr path;
     in_read := Some {| frame_height := 480; frame_width := 640 |};
     in_time_check := Finite t 0; in_time_stamp := Finite t 0;
     in_now := "2024-01-01 00:00:00";
     in_results := [ {| boxes := Some [ {| rx1 := Finite 0 0; ry1 := Finite 0 0;
                                          rx2 := Finite 256 0; ry2 := Finite 240 0 |} ] |} ];
     in_post_ok := true; in_reopened := true |}.

(** ** The life cycle of the reader *)

(** The character ['/']. *)
Definition slash : Ascii.ascii := Ascii.ascii_of_nat 47.

(** [s.rstrip('/')]: [s] without its trailing slashes. *)
Fixpoint rstrip_slash (s : string) : string :=
  match s with
  | EmptyString => EmptyString
  | String c s' =>
      match rstrip_slash s' with
      | EmptyString =>
          if Ascii.eqb c slash then EmptyString else String c EmptyString
      | t => String c t
      end
  end.

(** A [DetectionReader] object: the attributes set once by [__init__],
    whether [self.thread] is set, and the attributes that change. *)
Record detection_reader : Type := {
  server_url : string;
  endpoint : string;
  poll_interval : pyval;
  has_thread : bool;
  attrs : reader
}.

(** What the life-cycle methods print and do to threads. *)
Inductive lifecycle_event : Type :=
  | ThreadStart
  | ThreadJoin (timeout : Z)
  | LogAlreadyRunning
  | LogStartedThread
  | LogStopping
  | LogCleanedUp.

Definition set_running (b : bool) (r : reader) : reader :=
  {| running := b; last_detection := last_detection r; pathname := pathname r |}.

(** [start_reading]. *)
Definition start_reading (h : detection_reader)
    : list lifecycle_event * detection_reader :=
  if running (attrs h) then ([LogAlreadyRunning], h)
  else
    ([ThreadStart; LogStartedThread],
     {| server_url := server_url h; endpoint := endpoint h;
        poll_interval := poll_interval h; has_thread := true;
        attrs := set_running true (attrs h) |}).

(** [stop_reading]; [alive] is what [self.thread.is_alive()] answers. *)
Definition stop_reading (alive : bool) (h : detection_reader)
    : list lifecycle_event * detection_reader :=
  if negb (running (attrs h)) then ([], h)
  else
    (LogStopping :: (if has_thread h && alive then [ThreadJoin 5] else []),
     {| server_url := server_url h; endpoint := endpoint h;
        poll_interval := poll_interval h; has_thread := has_thread h;
        attrs := set_running false (attrs h) |}).

(** [cleanup]. *)
Definition cleanup (alive : bool) (h : detection_reader)
    : list lifecycle_event * detection_reader :=
  let '(l, h') := stop_reading alive h in (l ++ [LogCleanedUp], h').

(** [__init__]. *)
Definition init_reader (url : string) (interval : pyval) (auto_start : bool)
    : list lifecycle_event * detection_reader :=
  let h := {| server_url := rstrip_slash url;
              endpoint := rstrip_slash url ++ "/api/detections";
              poll_interval := interval; has_thread := false;
              attrs := {| running := false; last_detection := PNone;
                          pathname := PStr "" |} |} in
  if auto_start then start_reading h else ([], h).

(** A call of one of the life-cycle methods. *)
Inductive lifecycle_call : Type :=
  | CallStart
  | CallStop (alive : bool)
  | CallCleanup (alive : bool).

Definition lifecycle_step (c : lifecycle_call) (h : detection_reader)
    : list lifecycle_event * detection_reader :=
  match c with
  | CallStart => start_reading h
  | CallStop alive => stop_reading alive h
  | CallCleanup alive => cleanup alive h
  end.

(** A sequence of calls on the same object. *)
Fixpoint lifecycle_run (cs : list lifecycle_call) (h : detection_reader)
    : list lifecycle_event * detection_reader :=
  match cs with
  | [] => ([], h)
  | c :: cs =>
      let '(l1, h1) := lifecycle_step c h in
      let '(l2, h2) := lifecycle_run cs h1 in
      (l1 ++ l2, h2)
  end.

(** ** Further notions *)

(** How many of the answers carry a frame. *)
Definition frames_offered (ins : list iter_input) : Z :=
  Z.of_nat (length (List.filter (fun i => bool_decide (is_Some (in_read i))) ins)).

(** What a pass prints and calls when the read fails and the stream
    comes back. *)
Definition reconnect_trace (cfg : settings) : list event :=
  [ReadAttr "pathname"; LogReadFailed; CallRelease; CallSleep (PInt 100);
   CallOpenStream (stream_url cfg)].

Definition is_sleep (e : event) : bool :=
  match e with CallSleep _ => true | _ => false end.
Definition is_open_stream (e : event) : bool :=
  match e with CallOpenStream _ => true | _ => false end.
Definition is_release (e : event) : bool :=
  match e with CallRelease => true | _ => false end.
Definition is_get (e : event) : bool :=
  match e with CallGet => true | _ => false end.

(** The entries that a detection cycle reads are all there. *)
Definition config_complete (cfg : settings) : Prop :=
  is_Some (config_entry cfg "robot" (stream_url cfg)) /\
  is_Some (config_entry cfg "camera" (stream_url cfg)) /\
  is_Some (config_entry cfg "confidence" (model_type cfg)) /\
  (model_type cfg ∈ class_model_types ->
   is_Some (config_entry cfg "classes" (model_type cfg))).



(** The keys of a posted envelope. *)
Definition envelope_keys : gset string :=
  {["model_type"; "time"; "robot"; "camera"; "pose"; "bounding_box";
    "people_count"]}.

(** The same answers with the other fate for the POST. *)
Definition flip_post_ok (i : iter_input) : iter_input :=
  {| in_pathname := in_pathname i; in_read := in_read i;
     in_time_check := in_time_check i; in_time_stamp := in_time_stamp i;
     in_now := in_now i; in_results := in_results i;
     in_post_ok := negb (in_post_ok i); in_reopened := in_reopened i |}.

(** The settings that [main] takes from a configuration document: the
    endpoint and the timeout of the [api] section, or their defaults. *)
Definition loaded_settings (cmap : gmap string (gmap string pyval))
    (type stream : string) : settings :=
  {| model_type := type; stream_url := stream; config := cmap;
     post_endpoint :=
       default (PStr "http://post-server:8080/api/detections")
               (default ∅ (cmap !! "api") !! "post_endpoint");
     api_timeout := default (PInt 10) (default ∅ (cmap !! "api") !! "timeout") |}.

(** A fetch that fails in a way [get_detection] handles: no connection,
    or one of the rejected replies. *)
Definition transient_failure (reply : http_reply) : Prop :=
  reply = TransportError \/ exists diag, fetch_rejected reply diag.

(** A body that is JSON but not an object. *)
Definition not_an_object (v : pyval) : Prop :=
  match v with PDict _ => False | _ => True end.

(** A reply that [get_detection] and [extract_pathname] do not expect:
    the body is JSON but not an object, or the detection is a true value
    that is not an object. *)
Definition unexpected_reply (reply : http_reply) : Prop :=
  (exists v, reply = Reply 200 (Some v) /\ not_an_object v) \/
  (exists data det,
     reply = Reply 200 (Some (PDict data)) /\
     py_eq_str (default PNone (data !! "status")) "success" = true /\
     data !! "detection" = Some det /\
     truthy det = true /\ not_an_object det).

(** A reply with a detection object whose identifier [id] is there and
    true. *)
Definition located_reply (reply : http_reply) (d : gmap string pyval)
    (id : pyval) : Prop :=
  exists data,
    reply = Reply 200 (Some (PDict data)) /\
    py_eq_str (default PNone (data !! "status")) "success" = true /\
    data !! "detection" = Some (PDict d) /\
    d !! "InPathName" = Some id /\ truthy id = true.

(** What [last_detection] may hold: nothing yet, or a detection object
    whose identifier is there and true. *)
Definition stored_detection_ok (v : pyval) : Prop :=
  v = PNone \/
  exists d id, v = PDict d /\ d !! "InPathName" = Some id /\ truthy id = true.

(** The lock is taken and given back in turn along a trace; the result
    says whether it is held at the end, [None] when the trace takes it
    twice or gives it back without holding it. *)
Fixpoint lock_balance (held : bool) (tr : list event) : option bool :=
  match tr with
  | [] => Some held
  | LockAcquire :: tr => if held then None else lock_balance true tr
  | LockRelease :: tr => if held then lock_balance false tr else None
  | _ :: tr => lock_balance held tr
  end.

(** The ways one pass of the reader can go, with the trace, the
    attributes after it and how it ends: a handled failure, a body or a
    detection that is not an object, a detection that counts as false, a
    detection without a usable identifier, and a stored detection. *)
Inductive pass_result (interval : pyval) (r : reader)
    : list event * reader * outcome unit -> Prop :=
  | pass_failed diag :
      is_diagnostic diag = true ->
      pass_result interval r ([CallGet; diag; CallSleep interval], r, Done tt)
  | pass_raised :
      pass_result interval r ([CallGet], r, Raise AttributeError)
  | pass_skipped :
      pass_result interval r ([CallGet; CallSleep interval], r, Done tt)
  | pass_no_pathname d id :
      truthy id = false ->
      pass_result interval r
        ([CallGet; WriteAttr "pathname"; LogNoPathname;
          LogDetectionData (PDict d); CallSleep interval],
         set_pathname id r, Done tt)
  | pass_stored d id :
      d !! "InPathName" = Some id -> truthy id = true ->
      pass_result interval r
        ([CallGet; WriteAttr "pathname"; LockAcquire;
          WriteAttr "last_detection"; LockRelease; CallSleep interval],
         set_last_detection (PDict d) (set_pathname id r), Done tt).

Definition is_thread_start (e : lifecycle_event) : bool :=
  match e with ThreadStart => true | _ => false end.
Definition is_stopping (e : lifecycle_event) : bool :=
  match e with LogStopping => true | _ => false end.

(** The string is made of slashes only. *)
Fixpoint all_slashes (s : string) : bool :=
  match s with
  | EmptyString => true
  | String c s' => Ascii.eqb c slash && all_slashes s'
  end.

(** ** Proof automation *)

(** Case analysis on a membership in an explicit list of events. *)
Ltac in_cases H :=
  cbn in H;
  repeat (destruct H as [H|H]; [try discriminate H|]);
  try contradiction.

(** * Facts about the binary64 model *)

Module B64Facts.
Import B64.

Lemma rne_lower n d k : 0 < d -> k * d <= n -> k <= rne n d.
Proof.
  intros Hd Hk. unfold rne.
  pose proof (Z.div_mod n d ltac:(lia)) as Hdm.
  pose proof (Z.mod_pos_bound n d Hd) as Hr.
  assert (k <= n / d) by nia.
  repeat case_match; lia.
Qed.

Lemma rne_upper n d k : 0 < d -> n <= k * d -> rne n d <= k.
Proof.
  intros Hd Hk. unfold rne.
  pose proof (Z.div_mod n d ltac:(lia)) as Hdm.
  pose proof (Z.mod_pos_bound n d Hd) as Hr.
  destruct (Z.eq_dec (n mod d) 0) as [H0|H0].
  - rewrite H0. replace (2 * 0 <? d) with true by (symmetry; apply Z.ltb_lt; lia).
    nia.
  - assert (n / d < k) by nia.
    repeat case_match; lia.
Qed.

(** Rounding stays at or below an even integer [k] exactly up to the
    midpoint [k + 1/2]. *)
Lemma rne_le_even n d k :
  0 < d -> Z.even k = true -> (rne n d <=? k) = (2 * n <=? (2 * k + 1) * d).
Proof.
  intros Hd Hk. unfold rne.
  pose proof (Z.div_mod n d ltac:(lia)) as Hdm.
  pose proof (Z.mod_pos_bound n d Hd) as Hr.
  destruct (Z.lt_total (n / d) k) as [Hq|[Hq|Hq]].
  - transitivity true; [|symmetry]; apply Z.leb_le; [repeat case_match; lia | nia].
  - rewrite Hq in *. rewrite Hk.
    destruct (2 * (n mod d) <? d) eqn:E1; [|destruct (d <? 2 * (n mod d)) eqn:E2].
    + transitivity true; [|symmetry]; apply Z.leb_le; [lia | nia].
    + transitivity false; [|symmetry]; apply Z.leb_gt; [lia | nia].
    + transitivity true; [|symmetry]; apply Z.leb_le; [lia | nia].
  - transitivity false; [|symmetry]; apply Z.leb_gt; [repeat case_match; lia | nia].
Qed.

(** [ilog2_quot n d] is the binade of [n / d]:
    [2^e <= n / d < 2^(e+1)], written without division. *)
Lemma ilog2_quot_spec n d :
  0 < n -> 0 < d ->
  let e := ilog2_quot n d in
  d * 2 ^ Z.max 0 e <= n * 2 ^ Z.max 0 (- e) /\
  n * 2 ^ Z.max 0 (- e) < 2 * (d * 2 ^ Z.max 0 e).
Proof.
  intros Hn Hd. unfold ilog2_quot.
  destruct (Z.log2_spec n Hn) as [Hn1 Hn2].
  destruct (Z.log2_spec d Hd) as [Hd1 Hd2].
  pose proof (Z.log2_nonneg n) as Hln. pose proof (Z.log2_nonneg d) as Hld.
  rewrite Z.pow_succ_r in Hn2, Hd2 by assumption.
  set (ln := Z.log2 n) in *. set (ld := Z.log2 d) in *.
  destruct (Z.le_gt_cases 0 (ln - ld)) as [Hk|Hk].
  - rewrite (Z.max_l 0 (- (ln - ld))), (Z.max_r 0 (ln - ld)) by lia.
    replace ln with (ld + (ln - ld)) in Hn1, Hn2 by lia.
    rewrite Z.pow_add_r in Hn1, Hn2 by lia.
    set (k := ln - ld) in *. clearbody k.
    assert (0 < 2 ^ ld) by (apply Z.pow_pos_nonneg; lia).
    assert (0 < 2 ^ k) by (apply Z.pow_pos_nonneg; lia).
    rewrite Z.pow_0_r, Z.mul_1_r.
    destruct (n <? d * 2 ^ k) eqn:E; cbv zeta.
    + apply Z.ltb_lt in E.
      destruct (Z.eq_dec k 0) as [->|Hk0].
      * change (Z.max 0 (0 - 1)) with 0. change (Z.max 0 (- (0 - 1))) with 1.
        change (2 ^ 0) with 1 in *. change (2 ^ 1) with 2. nia.
      * rewrite (Z.max_r 0 (k - 1)), (Z.max_l 0 (- (k - 1))) by lia.
        assert (Hp : 2 ^ k = 2 * 2 ^ (k - 1)).
        { rewrite <- Z.pow_succ_r by lia. f_equal; lia. }
        assert (0 < 2 ^ (k - 1)) by (apply Z.pow_pos_nonneg; lia).
        rewrite Hp in *. rewrite Z.pow_0_r. nia.
    + apply Z.ltb_ge in E.
      rewrite (Z.max_r 0 k), (Z.max_l 0 (- k)) by lia.
      rewrite Z.pow_0_r. nia.
  - rewrite (Z.max_r 0 (- (ln - ld))), (Z.max_l 0 (ln - ld)) by lia.
    replace ld with (ln + (- (ln - ld))) in Hd1, Hd2 by lia.
    rewrite Z.pow_add_r in Hd1, Hd2 by lia.
    set (k := ln - ld) in *. clearbody k.
    assert (0 < 2 ^ ln) by (apply Z.pow_pos_nonneg; lia).
    assert (0 < 2 ^ (- k)) by (apply Z.pow_pos_nonneg; lia).
    rewrite Z.pow_0_r, Z.mul_1_r.
    destruct (n * 2 ^ (- k) <? d) eqn:E; cbv zeta.
    + apply Z.ltb_lt in E.
      rewrite (Z.max_l 0 (k - 1)), (Z.max_r 0 (- (k - 1))) by lia.
      replace (- (k - 1)) with (Z.succ (- k)) by lia.
      rewrite Z.pow_succ_r by lia. rewrite Z.pow_0_r. nia.
    + apply Z.ltb_ge in E.
      rewrite (Z.max_l 0 k), (Z.max_r 0 (- k)) by lia.
      rewrite Z.pow_0_r. nia.
Qed.

Lemma pow2_pos k : 0 <= k -> 0 < 2 ^ k.
Proof. intros. apply Z.pow_pos_nonneg; lia. Qed.

Lemma pow2_mono j k : 0 <= j <= k -> 2 ^ j <= 2 ^ k.
Proof. intros. apply Z.pow_le_mono_r; lia. Qed.

Lemma lit_0_9_eq : lit_0_9 = Finite 8106479329266893 (- 53).
Proof. reflexivity. Qed.

(** For a positive quotient below [2^1023] whose denominator is below
    [2^51], comparing the rounded quotient with the rounded [0.9] is
    the same as comparing the exact quotient with 9/10. *)
Lemma round_quot_lt_0_9 n d :
  0 < n < 2 ^ 1023 -> 0 < d < 2 ^ 51 ->
  exists m e, round_quot n d = Some (m, e) /\ 0 <= m /\
    lt_finite m e 8106479329266893 (- 53) = (10 * n <? 9 * d).
Proof.
  intros Hn Hd. unfold round_quot.
  destruct (ilog2_quot_spec n d ltac:(lia) ltac:(lia)) as [Hlo Hhi].
  set (e := ilog2_quot n d) in *. clearbody e.
  assert (He1 : - 51 <= e).
  { destruct (Z.le_gt_cases (- 51) e) as [|Hc]; [done|exfalso].
    rewrite (Z.max_l 0 e), (Z.max_r 0 (- e)), Z.pow_0_r in Hhi by lia.
    pose proof (pow2_mono 52 (- e) ltac:(lia)).
    change (2 ^ 52) with (2 * 2 ^ 51) in *. nia. }
  assert (He2 : e <= 1022).
  { destruct (Z.le_gt_cases e 1022) as [|Hc]; [done|exfalso].
    rewrite (Z.max_r 0 e), (Z.max_l 0 (- e)), Z.pow_0_r in Hlo by lia.
    pose proof (pow2_mono 1023 e ltac:(lia)). nia. }
  rewrite (Z.max_l (e - 52) (- 1074)) by lia.
  replace (971 <? e - 52) with false by (symmetry; apply Z.ltb_ge; lia).
  replace (e - 52 =? 971) with false by (symmetry; apply Z.eqb_neq; lia).
  cbn [orb andb]. eexists _, _. split; [reflexivity|].
  destruct (Z.le_gt_cases 52 e) as [Hbig|Hsmall].
  - (* mantissa computed by dividing by d * 2^(e-52) *)
    replace (0 <=? e - 52) with true by (symmetry; apply Z.leb_le; lia).
    rewrite (Z.max_r 0 e), (Z.max_l 0 (- e)), Z.pow_0_r in Hlo, Hhi by lia.
    pose proof (pow2_pos (e - 52) ltac:(lia)) as Hp.
    assert (Hpe : 2 ^ e = 2 ^ 52 * 2 ^ (e - 52)).
    { rewrite <- Z.pow_add_r by lia. f_equal; lia. }
    assert (Hm : 2 ^ 52 <= rne n (d * 2 ^ (e - 52))).
    { apply rne_lower; [nia|]. rewrite Hpe in Hlo. nia. }
    split; [lia|].
    unfold lt_finite. rewrite Z.min_r by lia.
    replace (- 53 - - 53) with 0 by lia. rewrite Z.pow_0_r.
    pose proof (pow2_mono 1 (e - 52 - - 53) ltac:(lia)) as Hq.
    change (2 ^ 1) with 2 in Hq.
    transitivity false; [|symmetry]; apply Z.ltb_ge; [nia|].
    pose proof (pow2_pos e ltac:(lia)). nia.
  - replace (0 <=? e - 52) with false by (symmetry; apply Z.leb_gt; lia).
    replace (- (e - 52)) with (52 - e) by lia.
    pose proof (pow2_pos (52 - e) ltac:(lia)) as Hp.
    assert (Hm0 : 0 <= rne (n * 2 ^ (52 - e)) d) by (apply rne_lower; nia).
    split; [done|].
    destruct (Z.le_gt_cases 0 e) as [He0|He0].
    + (* 1 <= n / d: at least 1, hence not below 0.9 *)
      rewrite (Z.max_r 0 e), (Z.max_l 0 (- e)), Z.pow_0_r in Hlo, Hhi by lia.
      assert (Hpe : 2 ^ 52 = 2 ^ e * 2 ^ (52 - e)).
      { rewrite <- Z.pow_add_r by lia. f_equal; lia. }
      assert (Hm : 2 ^ 52 <= rne (n * 2 ^ (52 - e)) d).
      { apply rne_lower; [lia|]. rewrite Hpe. nia. }
      unfold lt_finite. rewrite Z.min_r by lia.
      replace (- 53 - - 53) with 0 by lia. rewrite Z.pow_0_r.
      pose proof (pow2_mono 1 (e - 52 - - 53) ltac:(lia)) as Hq.
      change (2 ^ 1) with 2 in Hq.
      transitivity false; [|symmetry]; apply Z.ltb_ge; [nia|].
      pose proof (pow2_pos e ltac:(lia)). nia.
    + rewrite (Z.max_l 0 e), (Z.max_r 0 (- e)), Z.pow_0_r in Hlo, Hhi by lia.
      destruct (Z.eq_dec e (- 1)) as [->|Hne].
      * (* 1/2 <= n / d < 1: the binade of 0.9 *)
        change (52 - - 1) with 53. unfold lt_finite.
        change (Z.min (- 53) (- 53)) with (- 53).
        change (2 ^ (- 53 - - 53)) with 1. rewrite !Z.mul_1_r.
        transitivity (rne (n * 2 ^ 53) d <=? 8106479329266892).
        { destruct (Z.ltb_spec (rne (n * 2 ^ 53) d) 8106479329266893);
            symmetry; [apply Z.leb_le | apply Z.leb_gt]; lia. }
        rewrite rne_le_even by (lia || reflexivity).
        change (2 ^ 53) with 9007199254740992.
        change (2 ^ 51) with 2251799813685248 in Hd.
        destruct (Z.ltb_spec (10 * n) (9 * d));
          [apply Z.leb_le | apply Z.leb_gt]; lia.
      * (* n / d < 1/2 *)
        assert (Hpe : 2 ^ (52 - e) = 2 ^ 52 * 2 ^ (- e)).
        { rewrite <- Z.pow_add_r by lia. f_equal; lia. }
        assert (Hm : rne (n * 2 ^ (52 - e)) d <= 2 ^ 53).
        { apply rne_upper; [lia|]. rewrite Hpe.
          change (2 ^ 53) with (2 ^ 52 * 2). nia. }
        unfold lt_finite. rewrite Z.min_l by lia.
        replace (e - 52 - (e - 52)) with 0 by lia. rewrite Z.pow_0_r.
        pose proof (pow2_mono 1 (- 53 - (e - 52)) ltac:(lia)) as Hq.
        change (2 ^ 1) with 2 in Hq.
        pose proof (pow2_mono 2 (- e) ltac:(lia)) as Hq2.
        change (2 ^ 2) with 4 in Hq2.
        change (2 ^ 53) with 9007199254740992 in Hm.
        transitivity true; [|symmetry]; apply Z.ltb_lt; nia.
Qed.

(** The area test of [detection] decides the exact inequality. *)
Lemma area_test a b :
  Z.abs a < 2 ^ 1023 -> 0 < b < 2 ^ 51 ->
  exists f, int_true_divide a b = inr f /\
    ltb f lit_0_9 = (10 * a <? 9 * b).
Proof.
  intros Ha Hb. unfold int_true_divide.
  replace (b =? 0) with false by (symmetry; apply Z.eqb_neq; lia).
  destruct (Z.eqb_spec a 0) as [->|Hne].
  { eexists; split; [reflexivity|]. rewrite lit_0_9_eq.
    transitivity true; [reflexivity|symmetry; apply Z.ltb_lt; lia]. }
  destruct (round_quot_lt_0_9 (Z.abs a) (Z.abs b) ltac:(lia) ltac:(lia))
    as (m & e & -> & Hm & Hlt).
  eexists; split; [reflexivity|]. rewrite lit_0_9_eq. cbn [ltb].
  replace (b <? 0) with false by (symmetry; apply Z.ltb_ge; lia).
  rewrite (Z.abs_eq b) in Hlt by lia.
  destruct (Z.ltb_spec a 0) as [Hneg|Hpos]; cbn [Bool.eqb].
  - transitivity true; [|symmetry; apply Z.ltb_lt; lia].
    unfold lt_finite. apply Z.ltb_lt.
    pose proof (pow2_pos (e - Z.min e (- 53)) ltac:(lia)).
    pose proof (pow2_pos (- 53 - Z.min e (- 53)) ltac:(lia)). nia.
  - rewrite (Z.abs_eq a) in Hlt by lia. exact Hlt.
Qed.

End B64Facts.

(** * The detection step *)

Section Detection.
Context {S : Type}.
Implicit Types (s : S) (fr : frame) (acc : list pyval * list (list Z)).

Lemma frame_ok_bounds fr :
  frame_ok fr = true -> 0 < frame_height fr * frame_width fr < 2 ^ 51.
Proof.
  unfold frame_ok. rewrite !andb_true_iff, !Z.ltb_lt. nia.
Qed.

Lemma int_of_float_finite x :
  is_finite x = true -> int_of_float x = inr (float_trunc x).
Proof. destruct x; done. Qed.

(** A well-formed box is appended exactly when its area in whole pixels
    is below nine tenths of the frame; nothing is printed. *)
Lemma detection_box_ok fr acc b s :
  frame_ok fr = true -> box_ok b = true ->
  detection_box fr acc b s =
    ([], s, Done (if below_nine_tenths fr (truncate_box b)
                  then (acc.1 ++ [entry_of (truncate_box b)],
                        acc.2 ++ [coords_of (truncate_box b)])
                  else acc)).
Proof.
  intros Hfr Hb. apply frame_ok_bounds in Hfr.
  unfold box_ok in Hb. rewrite !andb_true_iff, Z.ltb_lt in Hb.
  destruct Hb as [[[[H1 H2] H3] H4] Ha].
  unfold detection_box, bind, lift.
  rewrite !int_of_float_finite by assumption.
  unfold truncate_box, box_area in *.
  destruct (B64Facts.area_test _ _ Ha Hfr) as (f & -> & Hf).
  cbn. rewrite Hf. unfold below_nine_tenths, box_area.
  by destruct (_ <? _).
Qed.

Lemma detection_boxes_ok fr bs : forall acc s,
  frame_ok fr = true -> Forall (fun b => box_ok b = true) bs ->
  detection_boxes fr acc bs s =
    ([], s, Done
       (acc.1 ++ map entry_of (filter (fun q => below_nine_tenths fr q = true)
                                      (map truncate_box bs)),
        acc.2 ++ map coords_of (filter (fun q => below_nine_tenths fr q = true)
                                       (map truncate_box bs)))).
Proof.
  induction bs as [|b bs IH]; intros acc s Hfr Hbs.
  - cbn. rewrite !app_nil_r. by destruct acc.
  - inversion_clear Hbs as [|? ? Hb Hbs'].
    cbn [detection_boxes]. unfold bind at 1.
    rewrite detection_box_ok by assumption.
    rewrite IH by assumption. cbn [map]. rewrite filter_cons.
    destruct (below_nine_tenths fr (truncate_box b)) eqn:E.
    + rewrite decide_True by done. cbn. by rewrite <- !app_assoc.
    + rewrite decide_False by done. done.
Qed.

Lemma detection_results_ok fr results : forall acc s,
  frame_ok fr = true ->
  Forall (fun b => box_ok b = true) (all_boxes results) ->
  detection_results fr acc results s =
    ([], s, Done
       (acc.1 ++ map entry_of (filter (fun q => below_nine_tenths fr q = true)
                                      (map truncate_box (all_boxes results))),
        acc.2 ++ map coords_of (filter (fun q => below_nine_tenths fr q = true)
                                       (map truncate_box (all_boxes results))))).
Proof.
  induction results as [|r results IH]; intros acc s Hfr Hbs.
  - cbn. rewrite !app_nil_r. by destruct acc.
  - unfold all_boxes in Hbs. cbn [map concat] in Hbs.
    apply Forall_app in Hbs as [Hr Hrest].
    cbn [detection_results]. unfold bind at 1.
    unfold all_boxes. cbn [map concat].
    rewrite map_app, filter_app, !map_app.
    destruct (boxes r) as [bs|]; cbn [default] in *.
    + rewrite detection_boxes_ok by assumption.
      rewrite IH by assumption. cbn. by rewrite <- !app_assoc.
    + cbn. rewrite IH by assumption. done.
Qed.

End Detection.

(** [int] leaves a float that is a whole number unchanged. *)
Lemma float_trunc_whole m e z :
  (B64.to_Q m e == inject_Z z)%Q -> float_trunc (Finite m e) = z.
Proof.
  unfold B64.to_Q, float_trunc, int_of_float.
  destruct (Z.leb_spec 0 e) as [He|He].
  - unfold Qeq, inject_Z. cbn [Qnum Qden]. lia.
  - unfold Qeq, inject_Z. cbn [Qnum Qden]. intros H.
    pose proof (B64Facts.pow2_pos (- e) ltac:(lia)) as Hp.
    rewrite Z2Pos.id in H by assumption.
    rewrite Z.mul_1_r in H. subst m. apply Z.quot_mul. lia.
Qed.

Lemma box_entry_fields x1 y1 x2 y2 :
  exists d, box_entry x1 y1 x2 y2 = PDict d /\
    d !! "x1" = Some (PInt x1) /\ d !! "y1" = Some (PInt y1) /\
    d !! "x2" = Some (PInt x2) /\ d !! "y2" = Some (PInt y2) /\
    d !! "width" = Some (PInt (x2 - x1)) /\
    d !! "height" = Some (PInt (y2 - y1)).
Proof. eexists. split; [reflexivity|]. repeat split; by simplify_map_eq. Qed.

(** C3, as stated, fails: in a frame of 10 by 10 pixels the box from
    (0.0, 0.0) to (9.5, 9.5) covers 90.25% of the frame, yet [int] cuts it
    to (0, 0, 9, 9), 81% of the frame, and it is kept with the cut
    coordinates. *)
Lemma fractional_box_is_kept :
  ~ excluded_iff_ratio_at_least_nine_tenths
      {| frame_height := 10; frame_width := 10 |}
      {| rx1 := Finite 0 0; ry1 := Finite 0 0;
         rx2 := Finite 19 (- 1); ry2 := Finite 19 (- 1) |}.
Proof.
  intros H.
  specialize (H _ _ _ [box_entry 0 0 9 9] eq_refl).
  assert (Hout : [box_entry 0 0 9 9] = []); [|discriminate Hout].
  apply H; [by vm_compute|].
  vm_compute. discriminate.
Qed.

(** C3 (amended): for a frame with fewer than [2^51] pixels, [detection]
    turns the coordinates of every box into integers by cutting the
    fraction, keeps exactly the boxes whose area in whole pixels is below
    nine tenths of the frame area, in order, and writes for each kept box
    the cut coordinates with width [x2 - x1] and height [y2 - y1]; the
    coordinates of a box are unchanged when they are whole numbers. *)
Theorem detection_keeps_boxes_below_nine_tenths {S : Type}
    (results : list yolo_result) (fr : frame) (json_tmp : gmap string pyval)
    (conf_threshold class_list : pyval) (s : S) :
  frame_ok fr = true ->
  Forall (fun b => box_ok b = true) (all_boxes results) ->
  let kept := filter (fun q => below_nine_tenths fr q = true)
                     (map truncate_box (all_boxes results)) in
  detection results fr json_tmp conf_threshold class_list s =
    ([CallPredict fr conf_threshold class_list], s,
     Done (<["bounding_box" := PList (map entry_of kept)]> json_tmp,
           map coords_of kept))
  /\ (forall x1 y1 x2 y2, exists d,
        entry_of (x1, y1, x2, y2) = PDict d /\
        d !! "x1" = Some (PInt x1) /\ d !! "y1" = Some (PInt y1) /\
        d !! "x2" = Some (PInt x2) /\ d !! "y2" = Some (PInt y2) /\
        d !! "width" = Some (PInt (x2 - x1)) /\
        d !! "height" = Some (PInt (y2 - y1)))
  /\ (forall m e z, (B64.to_Q m e == inject_Z z)%Q ->
        float_trunc (Finite m e) = z).
Proof.
  intros Hfr Hbs kept. split; [|split].
  - unfold detection, bind, emit.
    rewrite (detection_results_ok fr results ([], []) s Hfr Hbs). done.
  - intros. apply box_entry_fields.
  - apply float_trunc_whole.
Qed.

(** A frame of 640 by 480 pixels with a box of 20% of the frame and a box
    of 95% of it: the first is kept, the second is not. *)
Lemma detection_keeps_boxes_below_nine_tenths_witness :
  let fr := {| frame_height := 480; frame_width := 640 |} in
  let small := {| rx1 := Finite 0 0; ry1 := Finite 0 0;
                  rx2 := Finite 256 0; ry2 := Finite 240 0 |} in
  let large := {| rx1 := Finite 0 0; ry1 := Finite 0 0;
                  rx2 := Finite 640 0; ry2 := Finite 456 0 |} in
  frame_ok fr = true /\
  Forall (fun b => box_ok b = true) [small; large] /\
  detection [ {| boxes := Some [small; large] |} ] fr ∅ PNone PNone tt =
    ([CallPredict fr PNone PNone], tt,
     Done (<["bounding_box" := PList [box_entry 0 0 256 240]]> ∅,
           [[0; 256; 0; 240]])).
Proof.
  intros fr small large.
  assert (Hfr : frame_ok fr = true) by reflexivity.
  assert (Hbs : Forall (fun b => box_ok b = true) [small; large])
    by (repeat constructor).
  split; [exact Hfr|]. split; [exact Hbs|].
  exact (proj1 (detection_keeps_boxes_below_nine_tenths
                  [ {| boxes := Some [small; large] |} ] fr ∅ PNone PNone tt
                  Hfr Hbs)).
Defined.

(** * The monad *)

Section MonadFacts.
Context {S : Type}.

Lemma bind_done {A B} (m : M S A) (k : A -> M S B) s l1 s1 a :
  m s = (l1, s1, Done a) ->
  bind m k s = (let r := k a s1 in (l1 ++ r.1.1, r.1.2, r.2)).
Proof. unfold bind. intros ->. by destruct (k a s1) as [[??]?]. Qed.

Lemma bind_exit {A B} (m : M S A) (k : A -> M S B) s l1 s1 c :
  m s = (l1, s1, Exit c) -> bind m k s = (l1, s1, Exit c).
Proof. unfold bind. by intros ->. Qed.

Lemma bind_raise {A B} (m : M S A) (k : A -> M S B) s l1 s1 e :
  m s = (l1, s1, Raise e) -> bind m k s = (l1, s1, Raise e).
Proof. unfold bind. by intros ->. Qed.

Lemma get_config_run sec key c (s : S) :
  get_config sec key c s =
    match default ∅ (c !! sec) !! key with
    | Some v => ([], s, Done v)
    | None =>
        ([LogConfigMissing key;
          LogAvailable (map_to_list (default ∅ (c !! sec))).*1], s, Exit 1)
    end.
Proof. unfold get_config. by destruct (_ !! key). Qed.

End MonadFacts.

(** * The filter loop of [detection] *)

Section FilterLoop.
Context {S : Type}.
Implicit Types (s : S) (fr : frame) (acc : list pyval * list (list Z)).

(** A box is either skipped or appended to both lists; the loop writes
    nothing and leaves the locals alone. *)
Lemma detection_box_run fr acc b s :
  exists r, detection_box fr acc b s = ([], s, r) /\
    forall acc', r = Done acc' ->
      acc' = acc \/
      exists e c, acc' = (acc.1 ++ [e], acc.2 ++ [c]).
Proof.
  unfold detection_box, bind, lift.
  destruct (int_of_float (rx1 b)); [by eexists|].
  destruct (int_of_float (ry1 b)); [by eexists|].
  destruct (int_of_float (rx2 b)); [by eexists|].
  destruct (int_of_float (ry2 b)); [by eexists|].
  destruct (int_true_divide _ _); [by eexists|].
  destruct (B64.ltb _ _); cbn; eexists; (split; [reflexivity|]);
    intros acc' [= <-]; eauto.
Qed.

Lemma detection_boxes_run fr bs : forall acc s,
  exists r, detection_boxes fr acc bs s = ([], s, r) /\
    forall acc', r = Done acc' ->
      length acc.1 = length acc.2 -> length acc'.1 = length acc'.2.
Proof.
  induction bs as [|b bs IH]; intros acc s; cbn [detection_boxes].
  - eexists. split; [reflexivity|]. by intros acc' [= <-].
  - destruct (detection_box_run fr acc b s) as (r & Hr & Hacc).
    destruct r as [acc1|c|e].
    + destruct (IH acc1 s) as (r' & Hr' & Hlen).
      rewrite (bind_done _ _ _ _ _ _ Hr), Hr'. cbn.
      eexists. split; [reflexivity|]. intros acc' -> Hl.
      apply Hlen; [done|].
      destruct (Hacc _ eq_refl) as [->|(e & c & ->)]; [done|].
      cbn. rewrite !length_app. cbn. lia.
    + rewrite (bind_exit _ _ _ _ _ _ Hr). by eexists.
    + rewrite (bind_raise _ _ _ _ _ _ Hr). by eexists.
Qed.

Lemma detection_results_run fr results : forall acc s,
  exists r, detection_results fr acc results s = ([], s, r) /\
    forall acc', r = Done acc' ->
      length acc.1 = length acc.2 -> length acc'.1 = length acc'.2.
Proof.
  induction results as [|res results IH]; intros acc s; cbn [detection_results].
  - eexists. split; [reflexivity|]. by intros acc' [= <-].
  - assert (exists r, match boxes res with
                      | Some bs => detection_boxes fr acc bs
                      | None => ret acc
                      end s = ([], s, r) /\
              forall acc', r = Done acc' ->
                length acc.1 = length acc.2 -> length acc'.1 = length acc'.2)
      as (r & Hr & Hacc).
    { destruct (boxes res) as [bs|]; [apply detection_boxes_run|].
      eexists. split; [reflexivity|]. by intros acc' [= <-]. }
    destruct r as [acc1|c|e].
    + destruct (IH acc1 s) as (r' & Hr' & Hlen).
      rewrite (bind_done _ _ _ _ _ _ Hr), Hr'. cbn.
      eexists. split; [reflexivity|]. intros acc' -> Hl.
      apply Hlen; [done|]. by apply Hacc.
    + rewrite (bind_exit _ _ _ _ _ _ Hr). by eexists.
    + rewrite (bind_raise _ _ _ _ _ _ Hr). by eexists.
Qed.

(** [detection] calls the detector once, leaves the locals alone, and
    when it returns, [bounding_box] and [bbox_list] have one element
    for each kept box. *)
Lemma detection_run results fr json_tmp conf cl s :
  exists r, detection results fr json_tmp conf cl s
              = ([CallPredict fr conf cl], s, r) /\
    forall json bbox_list, r = Done (json, bbox_list) ->
      exists dets, json = <["bounding_box" := PList dets]> json_tmp /\
                   length dets = length bbox_list.
Proof.
  unfold detection.
  destruct (detection_results_run fr results ([], []) s) as (r & Hr & Hlen).
  unfold bind at 1. cbn [emit].
  destruct r as [acc|c|e].
  - rewrite (bind_done _ _ _ _ _ _ Hr). cbn.
    eexists. split; [reflexivity|]. intros json bb [= <- <-].
    exists acc.1. split; [done|]. by apply Hlen.
  - rewrite (bind_exit _ _ _ _ _ _ Hr). by eexists.
  - rewrite (bind_raise _ _ _ _ _ _ Hr). by eexists.
Qed.

End FilterLoop.

(** * The result of the filter loop does not depend on the locals *)

Section FilterLoopPure.
Context {S1 S2 : Type}.
Implicit Types (fr : frame) (acc : list pyval * list (list Z)).

Lemma detection_box_pure fr acc b (s1 : S1) (s2 : S2) :
  (detection_box fr acc b s1).2 = (detection_box fr acc b s2).2.
Proof.
  unfold detection_box, bind, lift.
  destruct (int_of_float (rx1 b)); [done|].
  destruct (int_of_float (ry1 b)); [done|].
  destruct (int_of_float (rx2 b)); [done|].
  destruct (int_of_float (ry2 b)); [done|].
  destruct (int_true_divide _ _); [done|].
  by destruct (B64.ltb _ _).
Qed.

Lemma detection_boxes_pure fr bs : forall acc (s1 : S1) (s2 : S2),
  (detection_boxes fr acc bs s1).2 = (detection_boxes fr acc bs s2).2.
Proof.
  induction bs as [|b bs IH]; intros acc s1 s2; [done|].
  cbn [detection_boxes].
  pose proof (detection_box_pure fr acc b s1 s2) as Hp.
  destruct (detection_box_run fr acc b s1) as (r1 & Hr1 & _).
  destruct (detection_box_run fr acc b s2) as (r2 & Hr2 & _).
  rewrite Hr1, Hr2 in Hp. cbn in Hp. subst r2.
  destruct r1 as [acc1|c|e].
  - rewrite (bind_done _ _ _ _ _ _ Hr1), (bind_done _ _ _ _ _ _ Hr2).
    cbn. apply IH.
  - by rewrite (bind_exit _ _ _ _ _ _ Hr1), (bind_exit _ _ _ _ _ _ Hr2).
  - by rewrite (bind_raise _ _ _ _ _ _ Hr1), (bind_raise _ _ _ _ _ _ Hr2).
Qed.

Lemma detection_results_pure fr results : forall acc (s1 : S1) (s2 : S2),
  (detection_results fr acc results s1).2
  = (detection_results fr acc results s2).2.
Proof.
  induction results as [|res results IH]; intros acc s1 s2; [done|].
  cbn [detection_results].
  set (m1 := match boxes res with
             | Some bs => detection_boxes fr acc bs
             | None => ret acc end : M S1 _).
  set (m2 := match boxes res with
             | Some bs => detection_boxes fr acc bs
             | None => ret acc end : M S2 _).
  assert (exists r, m1 s1 = ([], s1, r) /\ m2 s2 = ([], s2, r))
    as (r & Hr1 & Hr2).
  { subst m1 m2. destruct (boxes res) as [bs|]; [|by eexists].
    pose proof (detection_boxes_pure fr bs acc s1 s2) as Hp.
    destruct (detection_boxes_run fr bs acc s1) as (r1 & Hr1 & _).
    destruct (detection_boxes_run fr bs acc s2) as (r2 & Hr2 & _).
    rewrite Hr1, Hr2 in Hp. cbn in Hp. subst r2. by exists r1. }
  destruct r as [acc1|c|e].
  - rewrite (bind_done _ _ _ _ _ _ Hr1), (bind_done _ _ _ _ _ _ Hr2).
    cbn. apply IH.
  - by rewrite (bind_exit _ _ _ _ _ _ Hr1), (bind_exit _ _ _ _ _ _ Hr2).
  - by rewrite (bind_raise _ _ _ _ _ _ Hr1), (bind_raise _ _ _ _ _ _ Hr2).
Qed.

End FilterLoopPure.

(** Whatever the envelope, the threshold, the classes and the locals,
    [detection] returns the surviving boxes of the frame. *)
Lemma detection_bbox_list {S} results fr json_tmp conf cl (s : S) :
  exists r, detection results fr json_tmp conf cl s
              = ([CallPredict fr conf cl], s, r) /\
    outcome_map snd r = surviving_boxes fr results.
Proof.
  unfold surviving_boxes, detection.
  pose proof (detection_results_pure fr results ([], []) s tt) as Hp.
  destruct (detection_results_run fr results ([], []) s) as (r1 & Hr1 & _).
  destruct (detection_results_run fr results ([], []) tt) as (r2 & Hr2 & _).
  rewrite Hr1, Hr2 in Hp. cbn in Hp. subst r2.
  unfold bind at 1 3. cbn [emit].
  destruct r1 as [acc|c|e].
  - rewrite (bind_done _ _ _ _ _ _ Hr1), (bind_done _ _ _ _ _ _ Hr2).
    cbn. by eexists.
  - rewrite (bind_exit _ _ _ _ _ _ Hr1), (bind_exit _ _ _ _ _ _ Hr2).
    by eexists.
  - rewrite (bind_raise _ _ _ _ _ _ Hr1), (bind_raise _ _ _ _ _ _ Hr2).
    by eexists.
Qed.

(** * The detection cycle in closed form *)

Lemma detection_cycle_run cfg i fr st :
  detection_cycle cfg i fr st =
    match config_entry cfg "robot" (stream_url cfg) with
    | None => (missing_diagnostic cfg "robot" (stream_url cfg), st, Exit 1)
    | Some robot =>
    match config_entry cfg "camera" (stream_url cfg) with
    | None => (missing_diagnostic cfg "camera" (stream_url cfg), st, Exit 1)
    | Some camera =>
    match (if bool_decide (model_type cfg ∈ class_model_types)
           then config_entry cfg "classes" (model_type cfg)
           else Some (PList [PInt 0])) with
    | None => (missing_diagnostic cfg "classes" (model_type cfg), st, Exit 1)
    | Some cl =>
    match config_entry cfg "confidence" (model_type cfg) with
    | None => (missing_diagnostic cfg "confidence" (model_type cfg), st, Exit 1)
    | Some conf =>
    match (detection (in_results i) fr (detection_tmp_of cfg i robot camera)
                     conf cl st).2 with
    | Exit c => ([CallPredict fr conf cl], st, Exit c)
    | Raise e => ([CallPredict fr conf cl], st, Raise e)
    | Done (json, bbox_list) =>
        let n := Z.of_nat (length bbox_list) in
        if negb (n =? 0) then
          let envelope := <["people_count" := PInt n]> json in
          ([CallPredict fr conf cl; LogJsonData envelope;
            CallPost envelope (post_endpoint cfg) (api_timeout cfg);
            if in_post_ok i then LogPosted (post_endpoint cfg)
            else LogPostFailed (post_endpoint cfg);
            LogFrameSummary (frame_count st) n],
           set_previous_detection (in_time_stamp i) (set_detection_period 15 st),
           Done Continue)
        else
          ([CallPredict fr conf cl; LogFrameSummary (frame_count st) n],
           set_previous_detection (in_time_stamp i) (set_detection_period 7 st),
           Done Continue)
    end end end end end.
Proof.
  unfold detection_cycle, config_entry, missing_diagnostic.
  unfold bind at 1. rewrite get_config_run.
  destruct (default ∅ (config cfg !! "robot") !! stream_url cfg) as [robot|]; [|done].
  unfold bind at 1. rewrite get_config_run.
  destruct (default ∅ (config cfg !! "camera") !! stream_url cfg) as [camera|]; [|done].
  unfold bind at 1.
  assert ((if bool_decide (model_type cfg ∈ class_model_types)
           then get_config "classes" (model_type cfg) (config cfg)
           else ret (PList [PInt 0])) st
          = match (if bool_decide (model_type cfg ∈ class_model_types)
                   then default ∅ (config cfg !! "classes") !! model_type cfg
                   else Some (PList [PInt 0])) with
            | Some cl => ([], st, Done cl)
            | None => (missing_diagnostic cfg "classes" (model_type cfg), st, Exit 1)
            end) as ->.
  { destruct (bool_decide _); [|done]. by rewrite get_config_run. }
  destruct (if bool_decide _ then _ else _) as [cl|]; [|done].
  unfold bind at 1. rewrite get_config_run.
  destruct (default ∅ (config cfg !! "confidence") !! model_type cfg) as [conf|]; [|done].
  fold (detection_tmp_of cfg i robot camera).
  destruct (detection_run (in_results i) fr (detection_tmp_of cfg i robot camera)
              conf cl st) as (r & Hr & _).
  unfold bind at 1. rewrite Hr. cbn [snd].
  destruct r as [[json bbox_list]|c|e]; [|done..].
  cbv zeta. destruct (Z.of_nat (length bbox_list) =? 0); cbn [negb].
  - reflexivity.
  - unfold post_json_data. by destruct (in_post_ok i).
Qed.

(** * One pass of the loop in closed form *)

Lemma iteration_run cfg i st :
  iteration cfg i st =
    match in_read i with
    | None =>
        ([ReadAttr "pathname"; LogReadFailed; CallRelease;
          CallSleep (PInt 100); CallOpenStream (stream_url cfg)]
         ++ (if in_reopened i then [] else [LogReconnectFailed]),
         st, Done (if in_reopened i then Continue else Break))
    | Some fr =>
        let st1 := set_frame_count (frame_count st + 1) st in
        if due i st then
          if approved i then
            let r := detection_cycle cfg i fr
                       (if posted_warning st
                        then set_posted_warning false st1 else st1) in
            (ReadAttr "pathname"
               :: (if posted_warning st then [LogResuming (in_pathname i)] else [])
               ++ trace_of r,
             state_of r, r.2)
          else
            (ReadAttr "pathname"
               :: (if posted_warning st then [] else [LogNotInArea (in_pathname i)]),
             set_previous_detection (in_time_stamp i) (set_posted_warning true st1),
             Done Continue)
        else ([ReadAttr "pathname"], st1, Done Continue)
    end.
Proof.
  unfold iteration, approved, trace_of, state_of.
  destruct (in_read i) as [fr|].
  - unfold bind, emit, modify, get, ret. cbn -[detection_cycle py_in_strs due].
    change (due i (set_frame_count (frame_count st + 1) st)) with (due i st).
    destruct (due i st); [|done].
    destruct (py_in_strs (in_pathname i) valid_path); cbn -[detection_cycle];
      destruct (posted_warning st) eqn:Hw; cbn -[detection_cycle].
    + by destruct (detection_cycle _ _ _ _) as [[? ?] [?|?|?]].
    + by destruct (detection_cycle _ _ _ _) as [[? ?] [?|?|?]].
    + by destruct st; cbn in *; subst.
    + done.
  - unfold bind, emit, ret. cbn. by destruct (in_reopened i).
Qed.

(** C1: a pass of the loop that reads a location outside the approved
    ones never calls the publisher, whatever the frame, the clock and
    the detector answer. *)
Theorem unapproved_location_never_publishes cfg i st :
  approved i = false ->
  Forall (fun e => is_post e = false) (trace_of (iteration cfg i st)).
Proof.
  intros Hloc. rewrite iteration_run, Hloc. unfold trace_of.
  destruct (in_read i); [destruct (due i st)|];
    cbn; repeat case_match; repeat constructor.
Qed.

(** The location "c" reaches the loop with a frame and an elapsed
    cadence: nothing is posted. *)
Lemma unapproved_location_never_publishes_witness :
  let cfg := {| model_type := "person"; stream_url := "rtsp://cam";
                config := ∅; post_endpoint := PStr "http://post";
                api_timeout := PInt 10 |} in
  let i := {| in_pathname := PStr "c";
              in_read := Some {| frame_height := 480; frame_width := 640 |};
              in_time_check := Finite 104 0; in_time_stamp := Finite 104 0;
              in_now := "2024-01-01 00:00:00"; in_results := [];
              in_post_ok := true; in_reopened := true |} in
  approved i = false /\
  Forall (fun e => is_post e = false)
         (trace_of (iteration cfg i (initial_state (Finite 100 0)))).
Proof.
  intros cfg i. split; [reflexivity|].
  apply (unapproved_location_never_publishes cfg i); reflexivity.
Defined.

(** * What a detection cycle calls *)

Section CycleCalls.
Variables (cfg : settings) (i : iter_input) (fr : frame) (st : loop_state).

(** The detector is called with the configured threshold, and with the
    configured classes when the model type is one of the listed ones,
    [[0]] otherwise. *)
Lemma cycle_predict fr' conf cl :
  In (CallPredict fr' conf cl) (trace_of (detection_cycle cfg i fr st)) ->
  fr' = fr /\
  config_entry cfg "confidence" (model_type cfg) = Some conf /\
  (if bool_decide (model_type cfg ∈ class_model_types)
   then config_entry cfg "classes" (model_type cfg) = Some cl
   else cl = PList [PInt 0]).
Proof.
  rewrite detection_cycle_run. unfold trace_of, missing_diagnostic.
  intros H.
  destruct (config_entry cfg "robot" _); [|in_cases H].
  destruct (config_entry cfg "camera" _); [|in_cases H].
  destruct (bool_decide _).
  - destruct (config_entry cfg "classes" _); [|in_cases H].
    destruct (config_entry cfg "confidence" _); [|in_cases H].
    destruct (detection _ _ _ _ _ _).2 as [[json bb]|c|e];
      cbv zeta in H; [destruct (negb _)|..];
      in_cases H; try destruct (in_post_ok i); try discriminate H;
      by injection H as <- <- <-.
  - destruct (config_entry cfg "confidence" _); [|in_cases H].
    destruct (detection _ _ _ _ _ _).2 as [[json bb]|c|e];
      cbv zeta in H; [destruct (negb _)|..];
      in_cases H; try destruct (in_post_ok i); try discriminate H;
      by injection H as <- <- <-.
Qed.

(** A posted envelope is the one [detection] returned, with the count
    of the boxes added, and there is at least one box. *)
Lemma cycle_post json url timeout :
  In (CallPost json url timeout) (trace_of (detection_cycle cfg i fr st)) ->
  exists robot camera conf cl json0 bbox_list,
    (detection (in_results i) fr (detection_tmp_of cfg i robot camera)
               conf cl st).2 = Done (json0, bbox_list) /\
    bbox_list <> [] /\
    json = <["people_count" := PInt (Z.of_nat (length bbox_list))]> json0.
Proof.
  rewrite detection_cycle_run. unfold trace_of, missing_diagnostic.
  intros H.
  destruct (config_entry cfg "robot" _) as [robot|]; [|in_cases H].
  destruct (config_entry cfg "camera" _) as [camera|]; [|in_cases H].
  destruct (if bool_decide _ then _ else _) as [cl|]; [|in_cases H].
  destruct (config_entry cfg "confidence" _) as [conf|]; [|in_cases H].
  destruct (detection _ _ _ _ _ _).2 as [[json0 bb]|c|e] eqn:Hd;
    [|in_cases H..].
  cbv zeta in H. destruct (Z.of_nat (length bb) =? 0) eqn:Hn; cbn [negb] in H.
  - in_cases H.
  - in_cases H; [|destruct (in_post_ok i); discriminate H].
    injection H as <- _ _.
    exists robot, camera, conf, cl, json0, bb. split; [done|]. split; [|done].
    intros ->. done.
Qed.

End CycleCalls.

(** The calls of a pass of the loop are those of its detection cycle. *)
Lemma iteration_calls cfg i st e :
  is_post e || is_predict e = true ->
  In e (trace_of (iteration cfg i st)) ->
  exists fr st1,
    in_read i = Some fr /\ due i st = true /\ approved i = true /\
    In e (trace_of (detection_cycle cfg i fr st1)).
Proof.
  intros He. rewrite iteration_run. unfold trace_of.
  destruct (in_read i) as [fr|].
  - cbv zeta. destruct (due i st); [destruct (approved i)|].
    + cbn [fst]. intros [<-|Hin]; [done|].
      apply in_app_or in Hin as [Hin|Hin].
      * destruct (posted_warning st); [|done].
        destruct Hin as [<-|[]]. done.
      * eauto 10.
    + cbn. destruct (posted_warning st); cbn; intros H;
        repeat (destruct H as [<-|H]; [done|]); done.
    + cbn. intros [<-|[]]. done.
  - cbn. destruct (in_reopened i); cbn; intros H;
      repeat (destruct H as [<-|H]; [done|]); done.
Qed.

(** * The published envelope *)

(** C10: in every envelope handed to the publisher, [people_count] is
    the number of entries of [bounding_box], and there is at least one
    entry. *)
Theorem published_count_matches_boxes cfg i st json url timeout :
  In (CallPost json url timeout) (trace_of (iteration cfg i st)) ->
  exists dets,
    json !! "bounding_box" = Some (PList dets) /\
    json !! "people_count" = Some (PInt (Z.of_nat (length dets))) /\
    (1 <= length dets)%nat.
Proof.
  intros Hin.
  apply iteration_calls in Hin as (fr & st1 & _ & _ & _ & Hin); [|done].
  apply cycle_post in Hin
    as (robot & camera & conf & cl & json0 & bb & Hd & Hne & ->).
  destruct (detection_run (in_results i) fr
              (detection_tmp_of cfg i robot camera) conf cl st1)
    as (r & Hr & Hlen).
  rewrite Hr in Hd. cbn in Hd. subst r.
  destruct (Hlen _ _ eq_refl) as (dets & -> & Hl).
  exists dets. rewrite Hl. split; [by simplify_map_eq|].
  split; [by simplify_map_eq|].
  destruct bb; [done|cbn; lia].
Qed.

(** The sample pass at an approved location posts one box and the
    count 1. *)
Lemma published_count_matches_boxes_witness :
  let cfg := sample_settings "person" in
  let i := sample_pass "a" 104 in
  let json : gmap string pyval :=
    <["people_count" := PInt 1]>
    (<["bounding_box" := PList [box_entry 0 0 256 240]]>
    (detection_tmp_of cfg i (PStr "robot-1") (PStr "front"))) in
  In (CallPost json (post_endpoint cfg) (api_timeout cfg))
     (trace_of (iteration cfg i (initial_state (Finite 100 0)))) /\
  exists dets,
    json !! "bounding_box" = Some (PList dets) /\
    json !! "people_count" = Some (PInt (Z.of_nat (length dets))) /\
    (1 <= length dets)%nat.
Proof.
  intros cfg i json.
  assert (Hin : In (CallPost json (post_endpoint cfg) (api_timeout cfg))
                   (trace_of (iteration cfg i (initial_state (Finite 100 0))))).
  { vm_compute. do 3 right. left. reflexivity. }
  split; [exact Hin|].
  exact (published_count_matches_boxes cfg i _ json _ _ Hin).
Defined.

(** Every posted envelope carries the dictionary of [get_robot_pose]. *)
Lemma published_pose cfg i st json url timeout :
  In (CallPost json url timeout) (trace_of (iteration cfg i st)) ->
  json !! "pose" = Some (PDict get_robot_pose).
Proof.
  intros Hin.
  apply iteration_calls in Hin as (fr & st1 & _ & _ & _ & Hin); [|done].
  apply cycle_post in Hin
    as (robot & camera & conf & cl & json0 & bb & Hd & Hne & ->).
  destruct (detection_run (in_results i) fr
              (detection_tmp_of cfg i robot camera) conf cl st1)
    as (r & Hr & Hlen).
  rewrite Hr in Hd. cbn in Hd. subst r.
  destruct (Hlen _ _ eq_refl) as (dets & -> & Hl).
  unfold detection_tmp_of. by simplify_map_eq.
Qed.

(** C9: the pose dictionary has five keys, not six: the second ["y"] of
    the display replaces the first, so the keys are x, y, z, r and p, and
    the sample pass posts exactly that dictionary. *)
Theorem pose_has_five_keys :
  size get_robot_pose = 5%nat /\
  dom get_robot_pose = ({["x"; "y"; "z"; "r"; "p"]} : gset string) /\
  exists json,
    In (CallPost json (PStr "http://post-server:8080/api/detections") (PInt 10))
       (trace_of (iteration (sample_settings "person") (sample_pass "a" 104)
                            (initial_state (Finite 100 0)))) /\
    json !! "pose" = Some (PDict get_robot_pose).
Proof.
  split; [by vm_compute|]. split.
  - unfold get_robot_pose. rewrite !dom_insert_L, dom_empty_L. set_solver.
  - eexists. split; [vm_compute; do 3 right; left; reflexivity|].
    by vm_compute.
Qed.

(** * The arguments of the detector *)

(** C8, as stated, fails: for the model type "fire-and-smoke", which is
    not one of the four the loop lists, the detector is called with the
    classes [[0]] although the configuration has the entry [[0, 1]]. *)
Lemma unlisted_model_type_gets_class_zero :
  ~ classes_come_from_config (sample_settings "fire-and-smoke")
      (sample_pass "a" 104) (initial_state (Finite 100 0)).
Proof.
  intros H.
  specialize (H {| frame_height := 480; frame_width := 640 |}
                (PFloat (Finite 1 (- 1))) (PList [PInt 0])).
  assert (Hcl : config_entry (sample_settings "fire-and-smoke") "classes"
                  "fire-and-smoke" = Some (PList [PInt 0]));
    [|vm_compute in Hcl; discriminate Hcl].
  apply H. vm_compute. right. left. reflexivity.
Qed.

(** C8 (amended): every call of the detector is made with the confidence
    threshold that the configuration has for the model type; the class
    list is the entry of the model type in the configuration when the
    model type is one of "bicylce", "pets", "vehicle" and "person", and
    [[0]] for every other model type; and a pass whose gating passes
    makes that call when the entries it needs are there. *)
Theorem detector_arguments_from_config cfg i st :
  (forall fr conf cl,
     In (CallPredict fr conf cl) (trace_of (iteration cfg i st)) ->
     in_read i = Some fr /\
     config_entry cfg "confidence" (model_type cfg) = Some conf /\
     (if bool_decide (model_type cfg ∈ class_model_types)
      then config_entry cfg "classes" (model_type cfg) = Some cl
      else cl = PList [PInt 0]))
  /\
  (forall fr robot camera conf cl,
     in_read i = Some fr -> due i st = true -> approved i = true ->
     config_entry cfg "robot" (stream_url cfg) = Some robot ->
     config_entry cfg "camera" (stream_url cfg) = Some camera ->
     config_entry cfg "confidence" (model_type cfg) = Some conf ->
     (if bool_decide (model_type cfg ∈ class_model_types)
      then config_entry cfg "classes" (model_type cfg) = Some cl
      else cl = PList [PInt 0]) ->
     In (CallPredict fr conf cl) (trace_of (iteration cfg i st))).
Proof.
  split.
  - intros fr conf cl Hin.
    apply iteration_calls in Hin as (fr' & st1 & Hfr & _ & _ & Hin); [|done].
    apply cycle_predict in Hin as (-> & Hconf & Hcl). done.
  - intros fr robot camera conf cl Hfr Hdue Happ Hrobot Hcamera Hconf Hcl.
    rewrite iteration_run, Hfr, Hdue, Happ. unfold trace_of at 1. cbn [fst].
    right. apply in_or_app. right.
    rewrite detection_cycle_run, Hrobot, Hcamera, Hconf. unfold trace_of.
    destruct (bool_decide _); [rewrite Hcl|subst cl];
      (destruct (detection _ _ _ _ _ _).2 as [[json bb]|c|e];
       cbv zeta; [destruct (negb _)|..]); left; reflexivity.
Qed.

(** For the model type "person" the sample pass calls the detector with
    the configured threshold 0.5 and the configured classes. *)
Lemma detector_arguments_from_config_witness :
  let cfg := sample_settings "person" in
  let i := sample_pass "a" 104 in
  let st := initial_state (Finite 100 0) in
  let fr := {| frame_height := 480; frame_width := 640 |} in
  In (CallPredict fr (PFloat (Finite 1 (- 1))) (PList [PInt 0; PInt 1]))
     (trace_of (iteration cfg i st)) /\
  config_entry cfg "confidence" (model_type cfg) = Some (PFloat (Finite 1 (- 1))) /\
  config_entry cfg "classes" (model_type cfg) = Some (PList [PInt 0; PInt 1]).
Proof.
  intros cfg i st fr.
  assert (Hin : In (CallPredict fr (PFloat (Finite 1 (- 1))) (PList [PInt 0; PInt 1]))
                   (trace_of (iteration cfg i st))).
  { vm_compute. right. left. reflexivity. }
  split; [exact Hin|].
  destruct (proj1 (detector_arguments_from_config cfg i st) _ _ _ Hin)
    as (_ & Hconf & Hcl).
  split; [exact Hconf|exact Hcl].
Defined.

(** * The cadence *)

Lemma count_app p l1 l2 : count p (l1 ++ l2) = (count p l1 + count p l2)%nat.
Proof. unfold count. by rewrite List.filter_app, length_app. Qed.

Lemma count_cons p e l :
  count p (e :: l) = ((if p e then 1 else 0) + count p l)%nat.
Proof. unfold count. cbn. by destruct (p e). Qed.

(** A detection cycle sets the cadence to 7 or 15 when the detector
    returned, and leaves it alone otherwise. *)
Lemma detection_cycle_period cfg i fr st :
  let r := detection_cycle cfg i fr st in
  (detection_period (state_of r) = detection_period st \/
   detection_period (state_of r) = 7 \/
   detection_period (state_of r) = 15) /\
  (count is_predict (trace_of r) = 0%nat ->
   detection_period (state_of r) = detection_period st) /\
  posted_warning (state_of r) = posted_warning st /\
  count is_not_in_area (trace_of r) = 0%nat /\
  count is_resuming (trace_of r) = 0%nat.
Proof.
  cbv zeta. rewrite detection_cycle_run.
  unfold trace_of, state_of, missing_diagnostic.
  destruct (config_entry cfg "robot" _); [|cbn; tauto].
  destruct (config_entry cfg "camera" _); [|cbn; tauto].
  destruct (if bool_decide _ then _ else _); [|cbn; tauto].
  destruct (config_entry cfg "confidence" _); [|cbn; tauto].
  destruct (detection _ _ _ _ _ _).2 as [[json bb]|c|e];
    cbv zeta; [destruct (negb _)|..]; cbn;
    try destruct (in_post_ok i); cbn; repeat split; auto; discriminate.
Qed.

Lemma iteration_period cfg i st :
  let r := iteration cfg i st in
  (detection_period (state_of r) = detection_period st \/
   detection_period (state_of r) = 7 \/
   detection_period (state_of r) = 15) /\
  (count is_predict (trace_of r) = 0%nat ->
   detection_period (state_of r) = detection_period st).
Proof.
  cbv zeta. rewrite iteration_run.
  destruct (in_read i) as [fr|]; [|cbn; tauto].
  cbv zeta. destruct (due i st); [|cbn; tauto].
  destruct (approved i); [|cbn; tauto].
  match goal with |- context [detection_cycle cfg i fr ?s] =>
    destruct (detection_cycle_period cfg i fr s) as (H1 & H2 & _);
    assert (Hs : detection_period s = detection_period st)
      by (by destruct (posted_warning st))
  end.
  rewrite Hs in H1, H2.
  unfold trace_of, state_of in *. cbn [fst snd].
  split; [exact H1|].
  rewrite count_cons, count_app. cbn [is_predict]. intros Hc. apply H2. lia.
Qed.

(** The loop, one pass at a time. *)
Lemma main_loop_cons cfg i ins st :
  main_loop cfg (i :: ins) st =
    match iteration cfg i st with
    | (l1, s1, Done Continue) =>
        let r := main_loop cfg ins s1 in (l1 ++ trace_of r, state_of r, r.2)
    | (l1, s1, Done Break) => (l1 ++ [], s1, Done Break)
    | (l1, s1, Exit c) => (l1, s1, Exit c)
    | (l1, s1, Raise e) => (l1, s1, Raise e)
    end.
Proof.
  cbn [main_loop]. unfold bind, trace_of, state_of.
  destruct (iteration cfg i st) as [[l1 s1] [[|]|c|e]]; try done.
  by destruct (main_loop cfg ins s1) as [[??]?].
Qed.

Lemma main_loop_period cfg ins : forall st,
  let r := main_loop cfg ins st in
  (detection_period (state_of r) = detection_period st \/
   detection_period (state_of r) = 7 \/
   detection_period (state_of r) = 15) /\
  (count is_predict (trace_of r) = 0%nat ->
   detection_period (state_of r) = detection_period st).
Proof.
  induction ins as [|i ins IH]; intros st; cbv zeta; [cbn; tauto|].
  rewrite main_loop_cons.
  destruct (iteration_period cfg i st) as [H1 H2].
  destruct (iteration cfg i st) as [[l1 s1] [[|]|c|e]];
    unfold trace_of, state_of in *; cbn [fst snd] in *.
  - destruct (IH s1) as [H3 H4]. unfold trace_of, state_of in *.
    cbv zeta. cbn [fst snd]. split.
    + destruct H3 as [H3|H3]; [rewrite H3; exact H1|tauto].
    + rewrite count_app. intros Hc.
      rewrite H4 by lia. apply H2. lia.
  - rewrite app_nil_r. tauto.
  - tauto.
  - tauto.
Qed.

(** A pass whose gating passes and which runs to its end has run the
    detector, and its cadence is 15 when a box is left and 7 when none
    is. *)
Lemma gated_pass_period cfg i st fr c :
  in_read i = Some fr -> due i st = true -> approved i = true ->
  (iteration cfg i st).2 = Done c ->
  exists bbox_list,
    surviving_boxes fr (in_results i) = Done bbox_list /\
    detection_period (state_of (iteration cfg i st))
      = match bbox_list with [] => 7 | _ :: _ => 15 end.
Proof.
  intros Hfr Hdue Happ. rewrite iteration_run, Hfr, Hdue, Happ.
  cbv zeta. unfold state_of at 1. cbn [fst snd].
  rewrite detection_cycle_run. unfold state_of.
  destruct (config_entry cfg "robot" _) as [robot|]; [|done].
  destruct (config_entry cfg "camera" _) as [camera|]; [|done].
  destruct (if bool_decide _ then _ else _) as [cl|]; [|done].
  destruct (config_entry cfg "confidence" _) as [conf|]; [|done].
  match goal with |- context [detection ?rs fr ?j conf cl ?s] =>
    destruct (detection_bbox_list rs fr j conf cl s) as (r & Hr & Hs)
  end.
  rewrite Hr. cbn [snd]. rewrite <- Hs.
  destruct r as [[json bb]|x|e]; [|done..].
  intros _. exists bb. split; [done|].
  cbv zeta. destruct bb; cbn; reflexivity.
Qed.

(** Such a pass does run to its end when the configuration has the
    entries it reads and the filter loop returns. *)
Lemma gated_pass_completes cfg i st fr robot camera conf cl bbox_list :
  in_read i = Some fr -> due i st = true -> approved i = true ->
  config_entry cfg "robot" (stream_url cfg) = Some robot ->
  config_entry cfg "camera" (stream_url cfg) = Some camera ->
  config_entry cfg "confidence" (model_type cfg) = Some conf ->
  (if bool_decide (model_type cfg ∈ class_model_types)
   then config_entry cfg "classes" (model_type cfg) = Some cl
   else cl = PList [PInt 0]) ->
  surviving_boxes fr (in_results i) = Done bbox_list ->
  (iteration cfg i st).2 = Done Continue.
Proof.
  intros Hfr Hdue Happ Hrobot Hcamera Hconf Hcl Hs.
  rewrite iteration_run, Hfr, Hdue, Happ. cbv zeta. cbn [snd].
  rewrite detection_cycle_run, Hrobot, Hcamera, Hconf.
  assert ((if bool_decide (model_type cfg ∈ class_model_types)
           then config_entry cfg "classes" (model_type cfg)
           else Some (PList [PInt 0])) = Some cl) as ->.
  { destruct (bool_decide _); congruence. }
  match goal with |- context [detection ?rs fr ?j conf cl ?s] =>
    destruct (detection_bbox_list rs fr j conf cl s) as (r & Hr & Hs')
  end.
  rewrite Hr. cbn [snd]. rewrite Hs in Hs'.
  destruct r as [[json bb]|x|e]; [|done..].
  cbv zeta. by destruct (negb _).
Qed.

(** C2: the cadence is 3 when the loop starts and stays 3 as long as the
    detector has not been called; a pass whose gating passes and which
    runs to its end leaves the cadence at 15 when at least one box is
    left after the area test and at 7 when none is, and such a pass does
    run to its end when the configuration has its entries and the filter
    loop returns; at every moment of every run the cadence is 3, 7
    or 15. *)
Theorem cadence_transitions cfg :
  (forall start, detection_period (initial_state start) = 3)
  /\
  (forall ins start,
     count is_predict (trace_of (main_loop cfg ins (initial_state start))) = 0%nat ->
     detection_period (state_of (main_loop cfg ins (initial_state start))) = 3)
  /\
  (forall i st fr c,
     in_read i = Some fr -> due i st = true -> approved i = true ->
     (iteration cfg i st).2 = Done c ->
     exists bbox_list,
       surviving_boxes fr (in_results i) = Done bbox_list /\
       detection_period (state_of (iteration cfg i st))
         = match bbox_list with [] => 7 | _ :: _ => 15 end)
  /\
  (forall i st fr robot camera conf cl bbox_list,
     in_read i = Some fr -> due i st = true -> approved i = true ->
     config_entry cfg "robot" (stream_url cfg) = Some robot ->
     config_entry cfg "camera" (stream_url cfg) = Some camera ->
     config_entry cfg "confidence" (model_type cfg) = Some conf ->
     (if bool_decide (model_type cfg ∈ class_model_types)
      then config_entry cfg "classes" (model_type cfg) = Some cl
      else cl = PList [PInt 0]) ->
     surviving_boxes fr (in_results i) = Done bbox_list ->
     (iteration cfg i st).2 = Done Continue)
  /\
  (forall ins start,
     let p := detection_period (state_of (main_loop cfg ins (initial_state start))) in
     p = 3 \/ p = 7 \/ p = 15).
Proof.
  split; [done|]. split; [|split; [|split]].
  - intros ins start Hc.
    by rewrite (proj2 (main_loop_period cfg ins (initial_state start)) Hc).
  - intros. by eapply gated_pass_period.
  - intros. by eapply gated_pass_completes.
  - intros ins start p. subst p.
    destruct (proj1 (main_loop_period cfg ins (initial_state start)))
      as [->|[->| ->]]; auto.
Qed.

(** The sample pass at the approved location "a", four seconds after the
    start, leaves one box: the cadence becomes 15. *)
Lemma cadence_transitions_witness :
  let cfg := sample_settings "person" in
  let i := sample_pass "a" 104 in
  let st := initial_state (Finite 100 0) in
  let fr := {| frame_height := 480; frame_width := 640 |} in
  (in_read i = Some fr /\ due i st = true /\ approved i = true /\
   (iteration cfg i st).2 = Done Continue) /\
  exists bbox_list,
    surviving_boxes fr (in_results i) = Done bbox_list /\
    detection_period (state_of (iteration cfg i st))
      = match bbox_list with [] => 7 | _ :: _ => 15 end.
Proof.
  intros cfg i st fr.
  split; [by vm_compute|].
  apply (proj1 (proj2 (proj2 (cadence_transitions cfg))) i st fr Continue);
    by vm_compute.
Defined.

(** * The warning and the resume notice *)

Lemma trace_of_mk {S A} (l : list event) (s : S) (r : outcome A) :
  trace_of (l, s, r) = l.
Proof. reflexivity. Qed.

Lemma state_of_mk {S A} (l : list event) (s : S) (r : outcome A) :
  state_of (l, s, r) = s.
Proof. reflexivity. Qed.

(** A pass at a location outside the approved ones: it logs the warning
    when it reaches the location test with the flag clear, sets the flag
    when it reaches the test, and never ends the process. *)
Lemma iteration_unapproved cfg i st :
  approved i = false ->
  let r := iteration cfg i st in
  count is_not_in_area (trace_of r)
    = (if reaches_gating i st && negb (posted_warning st) then 1 else 0)%nat /\
  count is_resuming (trace_of r) = 0%nat /\
  posted_warning (state_of r) = posted_warning st || reaches_gating i st /\
  (exists c, r.2 = Done c) /\
  (reaches_gating i st = true ->
   trace_of r = ReadAttr "pathname"
                :: (if posted_warning st then [] else [LogNotInArea (in_pathname i)])).
Proof.
  intros Happ. cbv zeta. rewrite iteration_run, Happ.
  unfold reaches_gating, trace_of, state_of.
  destruct (in_read i) as [fr|].
  - cbv zeta. destruct (due i st); cbn [fst snd].
    + destruct (posted_warning st); cbn; split_and!; eauto.
    + rewrite orb_false_r. cbn. split_and!; eauto; done.
  - cbn [fst snd]. rewrite orb_false_r.
    destruct (in_reopened i); cbn; split_and!; eauto; done.
Qed.

(** A pass that does not reach the location test logs neither line and
    leaves the flag as it is. *)
Lemma iteration_not_gated cfg i st :
  reaches_gating i st = false ->
  let r := iteration cfg i st in
  count is_not_in_area (trace_of r) = 0%nat /\
  count is_resuming (trace_of r) = 0%nat /\
  posted_warning (state_of r) = posted_warning st.
Proof.
  unfold reaches_gating. intros Hg. cbv zeta. rewrite iteration_run.
  unfold trace_of, state_of.
  destruct (in_read i) as [fr|].
  - rewrite Hg. done.
  - cbn. by destruct (in_reopened i).
Qed.

(** A pass that reaches the location test at an approved location logs
    the resume notice when the flag is set, and the detection cycle
    starts with the flag clear. *)
Lemma iteration_approved cfg i st fr :
  in_read i = Some fr -> due i st = true -> approved i = true ->
  let r := iteration cfg i st in
  posted_warning (state_of r) = false /\
  count is_resuming (trace_of r) = (if posted_warning st then 1 else 0)%nat /\
  count is_not_in_area (trace_of r) = 0%nat /\
  exists st2,
    posted_warning st2 = false /\
    trace_of r = ReadAttr "pathname"
                 :: (if posted_warning st then [LogResuming (in_pathname i)] else [])
                 ++ trace_of (detection_cycle cfg i fr st2).
Proof.
  intros Hfr Hdue Happ. cbv zeta. rewrite iteration_run, Hfr, Hdue, Happ.
  cbv zeta.
  match goal with |- context [detection_cycle cfg i fr ?s] =>
    destruct (detection_cycle_period cfg i fr s) as (_ & _ & Hw & Hn & Hr);
    assert (Hs : posted_warning s = false)
      by (by destruct (posted_warning st) eqn:E);
    set (st2 := s) in *
  end.
  rewrite !trace_of_mk, state_of_mk.
  rewrite Hw, !count_cons, !count_app, Hn, Hr. cbn [is_resuming is_not_in_area].
  split; [done|]. split; [by destruct (posted_warning st)|].
  split; [by destruct (posted_warning st)|].
  exists st2. done.
Qed.

(** Over a stretch of passes at locations outside the approved ones the
    warning is logged once when the flag is clear at the start and some
    pass reaches the location test, and not at all otherwise. *)
Lemma main_loop_unapproved cfg ins : forall st,
  Forall (fun i => approved i = false) ins ->
  let r := main_loop cfg ins st in
  count is_not_in_area (trace_of r)
    = (if posted_warning st then 0
       else if reaches_gating_in cfg ins st then 1 else 0)%nat /\
  count is_resuming (trace_of r) = 0%nat /\
  posted_warning (state_of r) = posted_warning st || reaches_gating_in cfg ins st.
Proof.
  induction ins as [|i ins IH]; intros st Hall; cbv zeta.
  - cbn. rewrite orb_false_r. by destruct (posted_warning st).
  - inversion_clear Hall as [|? ? Hi Hins].
    rewrite main_loop_cons. cbn [reaches_gating_in].
    destruct (iteration_unapproved cfg i st Hi) as (Hn & Hr & Hw & [c Hc] & _).
    destruct (iteration cfg i st) as [[l1 s1] o].
    unfold trace_of, state_of in Hn, Hr, Hw. cbn [fst snd] in *. subst o.
    destruct c.
    + destruct (IH s1 Hins) as (Hn' & Hr' & Hw').
      unfold trace_of, state_of in *. cbv zeta. cbn [fst snd].
      rewrite !count_app, Hn, Hr, Hn', Hr', Hw', Hw.
      destruct (posted_warning st), (reaches_gating i st),
        (reaches_gating_in cfg ins s1); done.
    + unfold trace_of, state_of. cbn [fst snd].
      rewrite app_nil_r, Hn, Hr, Hw, orb_false_r.
      by destruct (posted_warning st), (reaches_gating i st).
Qed.

(** C4, as stated, fails: the location is "c" at a pass that reaches the
    location test (the warning is logged), then "a" at a pass one second
    later, which the cadence holds back, then "c" again at a pass that
    reaches the location test.  The last pass is a stretch outside the
    approved locations that follows a pass at an approved location, and
    it logs no warning, since the flag was never cleared. *)
Lemma no_warning_after_throttled_return :
  ~ warned_once_per_unapproved_stretch (sample_settings "person") (Finite 100 0).
Proof.
  intros H.
  specialize (H [sample_pass "c" 104] (sample_pass "a" 105) [sample_pass "c" 108]).
  assert (Hc : count is_not_in_area
             (trace_of (main_loop (sample_settings "person") [sample_pass "c" 108]
                (state_of (main_loop (sample_settings "person")
                             ([sample_pass "c" 104] ++ [sample_pass "a" 105])
                             (initial_state (Finite 100 0))))))
           = 1%nat); [|vm_compute in Hc; discriminate Hc].
  apply H.
  - by vm_compute.
  - done.
  - repeat constructor.
  - by vm_compute.
Qed.

(** C4 (amended): the flag is clear when the loop starts.  Over any
    stretch of passes at locations outside the approved ones the warning
    is logged at most once: once when the flag is clear at the start of
    the stretch and some pass of it reaches the location test (a frame
    was read and the cadence has elapsed), not at all otherwise; the
    resume notice is not logged, and the flag is set from the first such
    pass on.  The pass that logs the warning is one that reaches the
    location test with the flag clear.  A pass that reaches the location
    test at an approved location logs the resume notice exactly when the
    flag is set, once, before anything of the detection cycle, which
    starts with the flag clear, and leaves the flag clear.  A pass that
    does not reach the location test logs neither line and leaves the
    flag as it is. *)
Theorem warning_once_per_gated_stretch cfg :
  (forall start, posted_warning (initial_state start) = false)
  /\
  (forall ins st,
     Forall (fun i => approved i = false) ins ->
     let r := main_loop cfg ins st in
     count is_not_in_area (trace_of r)
       = (if posted_warning st then 0
          else if reaches_gating_in cfg ins st then 1 else 0)%nat /\
     count is_resuming (trace_of r) = 0%nat /\
     posted_warning (state_of r)
       = posted_warning st || reaches_gating_in cfg ins st)
  /\
  (forall i st,
     approved i = false -> reaches_gating i st = true ->
     let r := iteration cfg i st in
     trace_of r = ReadAttr "pathname"
                  :: (if posted_warning st then []
                      else [LogNotInArea (in_pathname i)]) /\
     posted_warning (state_of r) = true)
  /\
  (forall i st fr,
     in_read i = Some fr -> due i st = true -> approved i = true ->
     let r := iteration cfg i st in
     posted_warning (state_of r) = false /\
     count is_resuming (trace_of r) = (if posted_warning st then 1 else 0)%nat /\
     count is_not_in_area (trace_of r) = 0%nat /\
     exists st2,
       posted_warning st2 = false /\
       trace_of r = ReadAttr "pathname"
                    :: (if posted_warning st
                        then [LogResuming (in_pathname i)] else [])
                    ++ trace_of (detection_cycle cfg i fr st2))
  /\
  (forall i st,
     reaches_gating i st = false ->
     let r := iteration cfg i st in
     count is_not_in_area (trace_of r) = 0%nat /\
     count is_resuming (trace_of r) = 0%nat /\
     posted_warning (state_of r) = posted_warning st).
Proof.
  split; [done|]. split; [|split; [|split]].
  - intros ins st Hall. by apply main_loop_unapproved.
  - intros i st Happ Hg.
    destruct (iteration_unapproved cfg i st Happ) as (_ & _ & Hw & _ & Htr).
    cbv zeta. rewrite Hw, Hg, orb_true_r. split; [by apply Htr|done].
  - intros i st fr Hfr Hdue Happ. by apply iteration_approved.
  - intros i st Hg. by apply iteration_not_gated.
Qed.

(** Three passes at the location "c": the first reaches the location
    test and logs the warning, the second is held back by the cadence,
    the third reaches the test again and stays silent. *)
Lemma warning_once_per_gated_stretch_witness :
  let cfg := sample_settings "person" in
  let ins := [sample_pass "c" 104; sample_pass "c" 105; sample_pass "c" 108] in
  let st := initial_state (Finite 100 0) in
  Forall (fun i => approved i = false) ins /\
  count is_not_in_area (trace_of (main_loop cfg ins st)) = 1%nat /\
  count is_resuming (trace_of (main_loop cfg ins st)) = 0%nat /\
  posted_warning (state_of (main_loop cfg ins st)) = true.
Proof.
  intros cfg ins st.
  assert (Hall : Forall (fun i => approved i = false) ins)
    by (repeat constructor).
  split; [exact Hall|].
  exact (proj1 (proj2 (warning_once_per_gated_stretch cfg)) ins st Hall).
Defined.

(** * Missing configuration entries *)

(** C7, as stated, fails: with the robot entry missing, start-up ends
    normally and hands the settings to the loop. *)
Lemma missing_robot_entry_passes_startup :
  ~ missing_entry_exits_at_startup
      (delete "robot" (sample_config "person")) "person" "rtsp://cam".
Proof.
  intros H.
  destruct (H "robot" "rtsp://cam") as (tr & c & Hs & _).
  - cbn. tauto.
  - by vm_compute.
  - vm_compute in Hs. discriminate Hs.
Qed.

(** A detection cycle with a missing entry ends the process with status
    1 after the diagnostic of the first missing entry, before the
    detector is called. *)
Lemma detection_cycle_missing cfg i fr st :
  cycle_entry_missing cfg ->
  exists section key,
    config_entry cfg section key = None /\
    detection_cycle cfg i fr st = (missing_diagnostic cfg section key, st, Exit 1).
Proof.
  intros Hm. rewrite detection_cycle_run.
  destruct (config_entry cfg "robot" _) eqn:Hrobot; [|by eexists _, _].
  destruct (config_entry cfg "camera" _) eqn:Hcamera; [|by eexists _, _].
  destruct (bool_decide (model_type cfg ∈ class_model_types)) eqn:Hl.
  - destruct (config_entry cfg "classes" _) eqn:Hcl; [|by eexists _, _].
    destruct (config_entry cfg "confidence" _) eqn:Hconf; [|by eexists _, _].
    destruct Hm as [Hm|[Hm|[[_ Hm]|Hm]]]; congruence.
  - destruct (config_entry cfg "confidence" _) eqn:Hconf; [|by eexists _, _].
    apply bool_decide_eq_false in Hl.
    destruct Hm as [Hm|[Hm|[[Hm _]|Hm]]]; (congruence || done).
Qed.

(** C7 (amended): a missing model-path entry ends the process at
    start-up, before the loop, with exit status 1 after the diagnostic
    that lists the keys of the [models] section.  A missing robot, camera
    or confidence entry, or a missing class list for one of the listed
    model types, does not stop start-up; it ends the process with exit
    status 1, after the diagnostic that lists the keys of its section
    and before the detector is called, in a pass of the loop that
    reaches the location test at an approved location; a pass that does
    not get there runs on. *)
Theorem missing_entry_exits cfg :
  (forall cmap type stream start ins,
     default ∅ (cmap !! "models") !! type = None ->
     main (FileOk cmap) type stream start ins =
       ([CallOpenStream stream; LogStarting stream; LogConfigMissing type;
         LogAvailable (map_to_list (default ∅ (cmap !! "models"))).*1],
        Exit 1))
  /\
  (forall cmap type stream model_path,
     default ∅ (cmap !! "models") !! type = Some model_path ->
     exists tr s, startup (FileOk cmap) type stream tt = (tr, tt, Done s) /\
                  config s = cmap)
  /\
  (forall i st fr,
     in_read i = Some fr -> due i st = true -> approved i = true ->
     cycle_entry_missing cfg ->
     (iteration cfg i st).2 = Exit 1 /\
     count is_predict (trace_of (iteration cfg i st)) = 0%nat /\
     exists section key,
       config_entry cfg section key = None /\
       trace_of (iteration cfg i st)
         = ReadAttr "pathname"
           :: (if posted_warning st then [LogResuming (in_pathname i)] else [])
           ++ missing_diagnostic cfg section key)
  /\
  (forall i st,
     reaches_gating i st && approved i = false ->
     exists c, (iteration cfg i st).2 = Done c).
Proof.
  split; [|split; [|split]].
  - intros cmap type stream start ins Hm.
    unfold main, startup, load_model_config.
    unfold bind at 1. cbn [ret]. unfold bind at 1. cbn [emit].
    unfold bind at 1. cbn [emit]. unfold bind at 1.
    rewrite get_config_run, Hm. reflexivity.
  - intros cmap type stream model_path Hm.
    unfold startup, load_model_config.
    unfold bind at 1. cbn [ret]. unfold bind at 1. cbn [emit].
    unfold bind at 1. cbn [emit]. unfold bind at 1.
    rewrite get_config_run, Hm. cbn. by eexists _, _.
  - intros i st fr Hfr Hdue Happ Hm.
    rewrite iteration_run, Hfr, Hdue, Happ. cbv zeta.
    match goal with |- context [detection_cycle cfg i fr ?s] =>
      destruct (detection_cycle_missing cfg i fr s Hm) as (sec & key & Hk & ->)
    end.
    rewrite !trace_of_mk. cbn [snd]. split; [done|]. split.
    + rewrite count_cons, count_app. by destruct (posted_warning st).
    + by exists sec, key.
  - intros i st Hg. rewrite iteration_run. unfold reaches_gating in Hg.
    destruct (in_read i) as [fr|]; [|by eexists].
    cbv zeta. destruct (due i st); [|by eexists].
    rewrite andb_true_l in Hg. rewrite Hg. by eexists.
Qed.

(** With the robot entry missing, the sample pass at the approved
    location "a" ends the process with status 1. *)
Lemma missing_entry_exits_witness :
  let cfg := {| model_type := "person"; stream_url := "rtsp://cam";
                config := delete "robot" (sample_config "person");
                post_endpoint := PStr "http://post-server:8080/api/detections";
                api_timeout := PInt 10 |} in
  let i := sample_pass "a" 104 in
  let st := initial_state (Finite 100 0) in
  cycle_entry_missing cfg /\
  (iteration cfg i st).2 = Exit 1 /\
  trace_of (iteration cfg i st)
    = [ReadAttr "pathname"; LogConfigMissing "rtsp://cam"; LogAvailable []].
Proof.
  intros cfg i st.
  assert (Hm : cycle_entry_missing cfg) by (left; by vm_compute).
  split; [exact Hm|].
  destruct (proj1 (proj2 (proj2 (missing_entry_exits cfg))) i st
              {| frame_height := 480; frame_width := 640 |}
              eq_refl ltac:(by vm_compute) ltac:(by vm_compute) Hm)
    as (Hexit & _ & _).
  split; [exact Hexit|]. by vm_compute.
Defined.

(** * The location reader *)

Lemma get_detection_rejected {S} reply diag (s : S) :
  fetch_rejected reply diag ->
  get_detection reply s = ([CallGet; diag], s, Done PNone).
Proof.
  intros H. destruct H as [code body Hc| |data Hs|data Hs Hd];
    unfold get_detection, bind, emit, ret.
  - apply Z.eqb_neq in Hc. by rewrite Hc.
  - done.
  - cbn. by rewrite Hs.
  - cbn. by rewrite Hs, Hd.
Qed.

Lemma get_detection_no_identifier {S} reply det (s : S) :
  no_identifier reply det ->
  get_detection reply s = ([CallGet], s, Done (PDict det)).
Proof.
  intros (data & -> & Hs & Hd & _).
  unfold get_detection, bind, emit, ret. cbn. by rewrite Hs, Hd.
Qed.

Lemma reading_pass_no_identifier reply det interval r :
  no_identifier reply det ->
  reading_pass interval reply r =
    if bool_decide (det = ∅)
    then ([CallGet; CallSleep interval], r, Done tt)
    else ([CallGet; WriteAttr "pathname"; LogNoPathname;
           LogDetectionData (PDict det); CallSleep interval],
          set_pathname PNone r, Done tt).
Proof.
  intros H. unfold reading_pass.
  unfold bind at 1. unfold bind at 1.
  rewrite (get_detection_no_identifier reply det r H).
  destruct H as (data & _ & _ & _ & Hid).
  cbn [truthy]. destruct (bool_decide (det = ∅)); cbn [negb].
  - reflexivity.
  - unfold extract_pathname, bind, emit, modify, ret. rewrite Hid. reflexivity.
Qed.

(** C6, as stated, fails: for a successful reply whose detection object
    is empty, hence without the identifier field, [get_detection]
    returns the empty dictionary, not [None], and the pass of the reader
    prints nothing. *)
Lemma empty_detection_is_silent : ~ fetch_failures_absent_and_logged.
Proof.
  intros H.
  destruct (H empty_detection_reply (PFloat (Finite 5 0)) new_reader)
    as (_ & _ & Hlog).
  - right. exists ∅. eexists. split; [reflexivity|]. by vm_compute.
  - vm_compute in Hlog. discriminate Hlog.
Qed.

(** C6 (amended): for a status code other than 200, a body that is not
    JSON, a status field other than "success" and a missing detection
    object, [get_detection] prints one diagnostic and returns [None]
    without raising, and the pass of the reader changes nothing.  When
    the detection object is there but has no identifier field,
    [get_detection] returns that object; the pass of the reader then
    ends normally and stores no detection, and when the object is not
    empty it prints that no pathname was found and sets the shared
    pathname to [None]. *)
Theorem fetch_failures_absent :
  (forall (S : Type) reply diag (s : S),
     fetch_rejected reply diag ->
     get_detection reply s = ([CallGet; diag], s, Done PNone))
  /\
  (forall reply diag interval r,
     fetch_rejected reply diag ->
     reading_pass interval reply r
       = ([CallGet; diag; CallSleep interval], r, Done tt))
  /\
  (forall (S : Type) reply det (s : S),
     no_identifier reply det ->
     get_detection reply s = ([CallGet], s, Done (PDict det)))
  /\
  (forall reply det interval r,
     no_identifier reply det ->
     let res := reading_pass interval reply r in
     res.2 = Done tt /\
     last_detection (state_of res) = last_detection r /\
     (det <> ∅ ->
      trace_of res = [CallGet; WriteAttr "pathname"; LogNoPathname;
                      LogDetectionData (PDict det); CallSleep interval] /\
      pathname (state_of res) = PNone)).
Proof.
  split; [|split; [|split]].
  - intros S reply diag s H. by apply get_detection_rejected.
  - intros reply diag interval r H. unfold reading_pass.
    unfold bind at 1. unfold bind at 1.
    by rewrite (get_detection_rejected reply diag r H).
  - intros S reply det s H. by apply get_detection_no_identifier.
  - intros reply det interval r H. cbv zeta.
    rewrite (reading_pass_no_identifier reply det interval r H).
    destruct (decide (det = ∅)) as [->|Hne].
    + by rewrite bool_decide_eq_true_2.
    + by rewrite bool_decide_eq_false_2.
Qed.

(** A reply with status code 503 and a reply whose detection object has
    only a field "speed". *)
Lemma fetch_failures_absent_witness :
  let reply1 := Reply 503 None in
  let det : gmap string pyval := {[ "speed" := PInt 3 ]} in
  let reply2 := Reply 200 (Some (PDict {[ "status" := PStr "success";
                                          "detection" := PDict det ]})) in
  (fetch_rejected reply1 (LogHttpError 503) /\
   get_detection reply1 new_reader
     = ([CallGet; LogHttpError 503], new_reader, Done PNone))
  /\
  (no_identifier reply2 det /\
   get_detection reply2 new_reader = ([CallGet], new_reader, Done (PDict det))).
Proof.
  intros reply1 det reply2.
  assert (H1 : fetch_rejected reply1 (LogHttpError 503))
    by (by apply rejected_status_code).
  assert (H2 : no_identifier reply2 det).
  { eexists. split; [reflexivity|]. by vm_compute. }
  split.
  - split; [exact H1|].
    exact (proj1 fetch_failures_absent reader reply1 _ new_reader H1).
  - split; [exact H2|].
    exact (proj1 (proj2 (proj2 fetch_failures_absent)) reader reply2 det
             new_reader H2).
Defined.

(** * The lock *)

(** C5: the location that the loop reads is not under the lock.  Every
    pass of the loop reads [listener.pathname] while the lock is not
    held, and the reader writes it while the lock is not held; the lock
    is held only around [last_detection], which the loop never reads. *)
Theorem pathname_accessed_without_lock :
  (forall cfg i st,
     In (ReadAttr "pathname")
        (unlocked_accesses false (trace_of (iteration cfg i st))))
  /\
  unlocked_accesses false
    (trace_of (reading_pass (PFloat (Finite 5 0)) sample_reply new_reader))
    = [WriteAttr "pathname"]
  /\
  unlocked_accesses false (trace_of (get_last_detection new_reader)) = [].
Proof.
  split; [|split; by vm_compute].
  intros cfg i st. rewrite iteration_run.
  destruct (in_read i) as [fr|]; [|left; reflexivity].
  cbv zeta. destruct (due i st); [destruct (approved i)|];
    rewrite trace_of_mk; left; reflexivity.
Qed.

(** * The loop over a run *)

Lemma detection_cycle_frame_count cfg i fr st :
  frame_count (state_of (detection_cycle cfg i fr st)) = frame_count st.
Proof.
  rewrite detection_cycle_run. unfold state_of.
  destruct (config_entry cfg "robot" _); [|done].
  destruct (config_entry cfg "camera" _); [|done].
  destruct (if bool_decide _ then _ else _); [|done].
  destruct (config_entry cfg "confidence" _); [|done].
  destruct (detection _ _ _ _ _ _).2 as [[json bb]|c|e]; [|done..].
  cbv zeta. by destruct (negb _).
Qed.

(** A pass counts its frame, and nothing else changes the counter, also
    when the pass ends the process. *)
Lemma iteration_frame_count cfg i st :
  frame_count (state_of (iteration cfg i st))
  = frame_count st + (if bool_decide (is_Some (in_read i)) then 1 else 0).
Proof.
  rewrite iteration_run. destruct (in_read i) as [fr|].
  - rewrite bool_decide_eq_true_2 by eauto. cbv zeta.
    destruct (due i st); [destruct (approved i)|]; rewrite state_of_mk.
    + rewrite detection_cycle_frame_count. by destruct (posted_warning st).
    + done.
    + done.
  - rewrite bool_decide_eq_false_2 by (by intros [? ?]). rewrite state_of_mk. lia.
Qed.

Lemma frames_offered_cons i ins :
  frames_offered (i :: ins)
  = (if bool_decide (is_Some (in_read i)) then 1 else 0) + frames_offered ins.
Proof.
  unfold frames_offered. cbn [List.filter].
  destruct (bool_decide _); cbn [length]; lia.
Qed.

Lemma frames_offered_nonneg ins : 0 <= frames_offered ins.
Proof. unfold frames_offered. lia. Qed.

(** X1: the frame counter grows by one for each frame read: over a run
    it never exceeds the number of frames the stream offered, and it is
    exactly that number as long as the loop is still running. *)
Theorem frame_count_counts_frames cfg ins : forall st,
  let r := main_loop cfg ins st in
  frame_count st <= frame_count (state_of r) <= frame_count st + frames_offered ins /\
  (r.2 = Done Continue ->
   frame_count (state_of r) = frame_count st + frames_offered ins).
Proof.
  induction ins as [|i ins IH]; intros st; cbv zeta.
  - cbn. unfold frames_offered. cbn. split; [lia|]. intros _. lia.
  - rewrite main_loop_cons, frames_offered_cons.
    pose proof (iteration_frame_count cfg i st) as Hfc.
    pose proof (frames_offered_nonneg ins) as Hnn.
    destruct (iteration cfg i st) as [[l1 s1] [[|]|c|e]];
      rewrite state_of_mk in Hfc.
    + destruct (IH s1) as [Hb Heq]. cbv zeta. rewrite state_of_mk. cbn [snd].
      split; [destruct (bool_decide _); lia|].
      intros Hc. rewrite (Heq Hc). lia.
    + rewrite state_of_mk. cbn [snd]. split; [destruct (bool_decide _); lia|done].
    + rewrite state_of_mk. cbn [snd]. split; [destruct (bool_decide _); lia|done].
    + rewrite state_of_mk. cbn [snd]. split; [destruct (bool_decide _); lia|done].
Qed.

(** X2: passes whose read fails and whose stream comes back: each one
    releases the handle, sleeps 100 seconds and opens the stream again,
    once, in that order; the locals are untouched and the loop goes on. *)
Theorem read_failures_reconnect cfg ins st :
  Forall (fun i => in_read i = None /\ in_reopened i = true) ins ->
  main_loop cfg ins st
  = (flat_map (fun _ => reconnect_trace cfg) ins, st, Done Continue).
Proof.
  revert st. induction ins as [|i ins IH]; intros st Hall; [done|].
  inversion_clear Hall as [|? ? [Hr Ho] Hins].
  rewrite main_loop_cons, iteration_run, Hr, Ho. cbv zeta.
  rewrite (IH st Hins), trace_of_mk, state_of_mk. cbn [snd flat_map].
  unfold reconnect_trace. by rewrite app_nil_r.
Qed.

(** Three failed reads in a row. *)
Lemma read_failures_reconnect_witness :
  let cfg := sample_settings "person" in
  let i := {| in_pathname := PStr "a"; in_read := None;
              in_time_check := Finite 104 0; in_time_stamp := Finite 104 0;
              in_now := "2024-01-01 00:00:00"; in_results := [];
              in_post_ok := true; in_reopened := true |} in
  let st := initial_state (Finite 100 0) in
  Forall (fun i => in_read i = None /\ in_reopened i = true) [i; i; i] /\
  main_loop cfg [i; i; i] st
  = (reconnect_trace cfg ++ reconnect_trace cfg ++ reconnect_trace cfg,
     st, Done Continue).
Proof.
  intros cfg i st.
  assert (H : Forall (fun i => in_read i = None /\ in_reopened i = true) [i; i; i])
    by (repeat constructor).
  split; [exact H|].
  exact (read_failures_reconnect cfg [i; i; i] st H).
Defined.

(** Two passes at "a", four and five seconds after the start: two frames
    are counted. *)
Lemma frame_count_counts_frames_witness :
  let cfg := sample_settings "person" in
  let ins := [sample_pass "a" 104; sample_pass "a" 105] in
  let st := initial_state (Finite 100 0) in
  (main_loop cfg ins st).2 = Done Continue /\
  frame_count (state_of (main_loop cfg ins st)) = 0 + 2.
Proof.
  intros cfg ins st.
  assert (H : (main_loop cfg ins st).2 = Done Continue) by (by vm_compute).
  split; [exact H|].
  exact (proj2 (frame_count_counts_frames cfg ins st) H).
Defined.

(** The loop over two lists of answers: the second list is used only
    when the loop is still running after the first. *)
Lemma main_loop_app cfg ins1 ins2 : forall st,
  main_loop cfg (ins1 ++ ins2) st =
    match main_loop cfg ins1 st with
    | (l1, s1, Done Continue) =>
        let r := main_loop cfg ins2 s1 in (l1 ++ trace_of r, state_of r, r.2)
    | r => r
    end.
Proof.
  induction ins1 as [|i ins1 IH]; intros st.
  - cbn. unfold trace_of, state_of. by destruct (main_loop cfg ins2 st) as [[??]?].
  - cbn [app]. rewrite !main_loop_cons.
    destruct (iteration cfg i st) as [[l1 s1] [[|]|c|e]]; [|done..].
    rewrite IH. cbv zeta.
    destruct (main_loop cfg ins1 s1) as [[l2 s2] [[|]|c|e]];
      rewrite ?trace_of_mk, ?state_of_mk; cbn [snd]; [|done..].
    by rewrite app_assoc.
Qed.

(** What start-up does when the configuration has the model path. *)
Lemma startup_ok cmap type stream model_path :
  default ∅ (cmap !! "models") !! type = Some model_path ->
  startup (FileOk cmap) type stream tt
  = ([CallOpenStream stream; LogStarting stream; CallLoadModel model_path], tt,
     Done (loaded_settings cmap type stream)).
Proof.
  intros Hm. unfold startup, load_model_config.
  unfold bind at 1. cbn [ret]. unfold bind at 1. cbn [emit].
  unfold bind at 1. cbn [emit]. unfold bind at 1.
  rewrite get_config_run, Hm. reflexivity.
Qed.

(** X3: when a read fails and the stream does not come back, the run is
    over: the pass prints that the reconnect failed, the loop breaks
    whatever might follow, and [main] prints the number of frames read
    so far and releases the handle. *)
Theorem stream_loss_ends_run cmap type stream start before i after
    model_path tr1 st1 :
  default ∅ (cmap !! "models") !! type = Some model_path ->
  in_read i = None -> in_reopened i = false ->
  main_loop (loaded_settings cmap type stream) before (initial_state start)
    = (tr1, st1, Done Continue) ->
  main (FileOk cmap) type stream start (before ++ i :: after)
  = ([CallOpenStream stream; LogStarting stream; CallLoadModel model_path]
       ++ (tr1 ++ reconnect_trace (loaded_settings cmap type stream)
               ++ [LogReconnectFailed])
       ++ [LogTotalFrames (frames_offered before); CallRelease],
     Done Break).
Proof.
  intros Hm Hr Ho Hl. unfold main. rewrite (startup_ok _ _ _ _ Hm).
  rewrite main_loop_app, Hl. cbv zeta.
  rewrite main_loop_cons, iteration_run, Hr, Ho.
  rewrite trace_of_mk, state_of_mk. cbn [snd].
  pose proof (proj2 (frame_count_counts_frames (loaded_settings cmap type stream)
                       before (initial_state start))) as Hfc.
  rewrite Hl, state_of_mk in Hfc. cbn [snd] in Hfc.
  rewrite (Hfc eq_refl). cbn [initial_state frame_count].
  rewrite app_nil_r. unfold reconnect_trace. cbn [app].
  by rewrite Z.add_0_l.
Qed.

(** One counted frame, then the stream is lost for good; the pass after
    it is never run. *)
Lemma stream_loss_ends_run_witness :
  let cmap := sample_config "person" in
  let lost := {| in_pathname := PStr "a"; in_read := None;
                 in_time_check := Finite 105 0; in_time_stamp := Finite 105 0;
                 in_now := "2024-01-01 00:00:00"; in_results := [];
                 in_post_ok := true; in_reopened := false |} in
  main (FileOk cmap) "person" "rtsp://cam" (Finite 100 0)
       ([sample_pass "c" 101] ++ lost :: [sample_pass "a" 120])
  = ([CallOpenStream "rtsp://cam"; LogStarting "rtsp://cam";
      CallLoadModel (PStr "model.pt"); ReadAttr "pathname";
      ReadAttr "pathname"; LogReadFailed; CallRelease; CallSleep (PInt 100);
      CallOpenStream "rtsp://cam"; LogReconnectFailed;
      LogTotalFrames 1; CallRelease],
     Done Break).
Proof.
  intros cmap lost.
  exact (stream_loss_ends_run cmap "person" "rtsp://cam" (Finite 100 0)
           [sample_pass "c" 101] lost [sample_pass "a" 120]
           (PStr "model.pt") [ReadAttr "pathname"]
           (set_frame_count 1 (initial_state (Finite 100 0)))
           ltac:(by vm_compute) eq_refl eq_refl ltac:(by vm_compute)).
Defined.

(** Every event of a run comes from one of its passes. *)
Lemma main_loop_in cfg e ins : forall st,
  In e (trace_of (main_loop cfg ins st)) ->
  exists i st', In i ins /\ In e (trace_of (iteration cfg i st')).
Proof.
  induction ins as [|i ins IH]; intros st; [by cbn|].
  rewrite main_loop_cons.
  destruct (iteration cfg i st) as [[l1 s1] o] eqn:Hi.
  assert (Hl1 : In e l1 -> exists i0 st', In i0 (i :: ins) /\
                  In e (trace_of (iteration cfg i0 st'))).
  { intros Hin. exists i, st. split; [by left|]. by rewrite Hi. }
  destruct o as [[|]|c|x]; cbv zeta; rewrite trace_of_mk; try exact Hl1.
  - intros Hin. apply in_app_or in Hin as [Hin|Hin]; [by apply Hl1|].
    destruct (IH s1 Hin) as (i0 & st' & Hi0 & He).
    exists i0, st'. split; [by right|done].
  - rewrite app_nil_r. exact Hl1.
Qed.

(** What is posted, and where to. *)
Lemma cycle_post_envelope cfg i fr st json url timeout :
  In (CallPost json url timeout) (trace_of (detection_cycle cfg i fr st)) ->
  url = post_endpoint cfg /\ timeout = api_timeout cfg /\
  exists robot camera dets,
    config_entry cfg "robot" (stream_url cfg) = Some robot /\
    config_entry cfg "camera" (stream_url cfg) = Some camera /\
    json = <["people_count" := PInt (Z.of_nat (length dets))]>
           (<["bounding_box" := PList dets]>
           (detection_tmp_of cfg i robot camera)).
Proof.
  rewrite detection_cycle_run. unfold trace_of, missing_diagnostic.
  intros H.
  destruct (config_entry cfg "robot" _) as [robot|]; [|in_cases H].
  destruct (config_entry cfg "camera" _) as [camera|]; [|in_cases H].
  destruct (if bool_decide _ then _ else _) as [cl|]; [|in_cases H].
  destruct (config_entry cfg "confidence" _) as [conf|]; [|in_cases H].
  destruct (detection_run (in_results i) fr
              (detection_tmp_of cfg i robot camera) conf cl st)
    as (r & Hr & Hlen).
  rewrite Hr in H. cbn [snd] in H.
  destruct r as [[json0 bb]|c|e]; [|in_cases H..].
  destruct (Hlen _ _ eq_refl) as (dets & -> & Hl).
  cbv zeta in H. destruct (Z.of_nat (length bb) =? 0); cbn [negb] in H.
  - in_cases H.
  - in_cases H; [|destruct (in_post_ok i); discriminate H].
    injection H as <- <- <-. split; [done|]. split; [done|].
    exists robot, camera, dets. by rewrite Hl.
Qed.

(** X4: every envelope that a run of [main] posts goes to the endpoint
    and with the timeout of the [api] section of the configuration, and
    to "http://post-server:8080/api/detections" with timeout 10 when the
    section does not say. *)
Theorem posts_go_to_configured_endpoint cmap type stream start ins json url timeout :
  In (CallPost json url timeout) (main (FileOk cmap) type stream start ins).1 ->
  url = default (PStr "http://post-server:8080/api/detections")
                (default ∅ (cmap !! "api") !! "post_endpoint") /\
  timeout = default (PInt 10) (default ∅ (cmap !! "api") !! "timeout").
Proof.
  unfold main.
  destruct (default ∅ (cmap !! "models") !! type) as [model_path|] eqn:Hm.
  - rewrite (startup_ok _ _ _ _ Hm).
    set (cfg := loaded_settings cmap type stream).
    assert (Hloop : In (CallPost json url timeout)
                       (trace_of (main_loop cfg ins (initial_state start))) ->
                    url = post_endpoint cfg /\ timeout = api_timeout cfg).
    { intros Hin. apply main_loop_in in Hin as (i & st' & _ & Hin).
      apply iteration_calls in Hin as (fr & st1 & _ & _ & _ & Hin); [|done].
      apply cycle_post_envelope in Hin as (-> & -> & _). done. }
    unfold trace_of in Hloop.
    destruct (main_loop cfg ins (initial_state start)) as [[l1 s1] o].
    cbn [fst] in Hloop.
    assert (Hall : forall l, In (CallPost json url timeout)
                     ([CallOpenStream stream; LogStarting stream;
                       CallLoadModel model_path] ++ l1 ++ l) ->
                   (forall e, In e l -> is_post e = false) ->
                   url = post_endpoint cfg /\ timeout = api_timeout cfg).
    { intros l Hin Hl. cbn [app] in Hin.
      destruct Hin as [H|[H|[H|Hin]]]; try discriminate H.
      apply in_app_or in Hin as [Hin|Hin]; [by apply Hloop|].
      by specialize (Hl _ Hin). }
    destruct o as [[|]|c|x]; cbn [fst]; intros Hin.
    + apply (Hall []); [by rewrite app_nil_r|]. by intros e [].
    + apply (Hall _ Hin). intros e [<-|[<-|[]]]; done.
    + apply (Hall _ Hin). intros e [<-|[<-|[]]]; done.
    + apply (Hall _ Hin). intros e [<-|[<-|[]]]; done.
  - unfold startup, load_model_config.
    unfold bind at 1. cbn [ret]. unfold bind at 1. cbn [emit].
    unfold bind at 1. cbn [emit]. unfold bind at 1.
    rewrite get_config_run, Hm. cbn. intros H. in_cases H.
Qed.

(** The sample configuration has no [api] section: the sample pass posts
    to the default endpoint. *)
Lemma posts_go_to_configured_endpoint_witness :
  let json : gmap string pyval :=
    <["people_count" := PInt 1]>
    (<["bounding_box" := PList [box_entry 0 0 256 240]]>
    (detection_tmp_of (sample_settings "person") (sample_pass "a" 104)
                      (PStr "robot-1") (PStr "front"))) in
  In (CallPost json (PStr "http://post-server:8080/api/detections") (PInt 10))
     (main (FileOk (sample_config "person")) "person" "rtsp://cam"
           (Finite 100 0) [sample_pass "a" 104]).1 /\
  PStr "http://post-server:8080/api/detections"
  = default (PStr "http://post-server:8080/api/detections")
            (default ∅ (sample_config "person" !! "api") !! "post_endpoint").
Proof.
  intros json.
  assert (Hin : In (CallPost json (PStr "http://post-server:8080/api/detections")
                      (PInt 10))
                   (main (FileOk (sample_config "person")) "person" "rtsp://cam"
                         (Finite 100 0) [sample_pass "a" 104]).1).
  { vm_compute. do 6 right. left. reflexivity. }
  split; [exact Hin|].
  exact (proj1 (posts_go_to_configured_endpoint _ _ _ _ _ _ _ _ Hin)).
Defined.

(** * More on the envelope and the calls *)

(** X5: a posted envelope has exactly the seven keys model_type, time,
    robot, camera, pose, bounding_box and people_count; the model type
    is the one of the command line, the time is the clock reading of the
    pass, and robot and camera are the entries of the stream in the
    configuration. *)
Theorem envelope_schema cfg i st json url timeout :
  In (CallPost json url timeout) (trace_of (iteration cfg i st)) ->
  dom json = envelope_keys /\
  json !! "model_type" = Some (PStr (model_type cfg)) /\
  json !! "time" = Some (PStr (in_now i)) /\
  json !! "robot" = config_entry cfg "robot" (stream_url cfg) /\
  json !! "camera" = config_entry cfg "camera" (stream_url cfg).
Proof.
  intros Hin.
  apply iteration_calls in Hin as (fr & st1 & _ & _ & _ & Hin); [|done].
  apply cycle_post_envelope in Hin
    as (_ & _ & robot & camera & dets & Hrobot & Hcamera & ->).
  rewrite Hrobot, Hcamera. unfold detection_tmp_of, envelope_keys.
  split; [|by simplify_map_eq].
  rewrite !dom_insert_L, dom_empty_L. set_solver.
Qed.

(** The envelope that the sample pass posts. *)
Lemma envelope_schema_witness :
  let cfg := sample_settings "person" in
  let i := sample_pass "a" 104 in
  let json : gmap string pyval :=
    <["people_count" := PInt 1]>
    (<["bounding_box" := PList [box_entry 0 0 256 240]]>
    (detection_tmp_of cfg i (PStr "robot-1") (PStr "front"))) in
  In (CallPost json (post_endpoint cfg) (api_timeout cfg))
     (trace_of (iteration cfg i (initial_state (Finite 100 0)))) /\
  dom json = envelope_keys.
Proof.
  intros cfg i json.
  assert (Hin : In (CallPost json (post_endpoint cfg) (api_timeout cfg))
                   (trace_of (iteration cfg i (initial_state (Finite 100 0))))).
  { vm_compute. do 3 right. left. reflexivity. }
  split; [exact Hin|].
  exact (proj1 (envelope_schema cfg i _ json _ _ Hin)).
Defined.

(** A detection cycle calls the detector at most once and posts at most
    once, and only after the detector was called. *)
Lemma detection_cycle_counts cfg i fr st :
  (count is_post (trace_of (detection_cycle cfg i fr st))
   <= count is_predict (trace_of (detection_cycle cfg i fr st)) <= 1)%nat.
Proof.
  rewrite detection_cycle_run. unfold trace_of, missing_diagnostic.
  destruct (config_entry cfg "robot" _); [|cbn; lia].
  destruct (config_entry cfg "camera" _); [|cbn; lia].
  destruct (if bool_decide _ then _ else _); [|cbn; lia].
  destruct (config_entry cfg "confidence" _); [|cbn; lia].
  destruct (detection _ _ _ _ _ _).2 as [[json bb]|c|e];
    cbv zeta; [destruct (negb _)|..]; cbn; try destruct (in_post_ok i); cbn; lia.
Qed.

Lemma iteration_counts cfg i st :
  (count is_post (trace_of (iteration cfg i st))
   <= count is_predict (trace_of (iteration cfg i st)))%nat /\
  Z.of_nat (count is_predict (trace_of (iteration cfg i st)))
  <= frame_count (state_of (iteration cfg i st)) - frame_count st.
Proof.
  rewrite iteration_frame_count. rewrite iteration_run.
  destruct (in_read i) as [fr|].
  - rewrite bool_decide_eq_true_2 by eauto. cbv zeta.
    destruct (due i st); [destruct (approved i)|]; rewrite !trace_of_mk.
    + match goal with |- context [detection_cycle cfg i fr ?s] =>
        pose proof (detection_cycle_counts cfg i fr s) as Hc
      end.
      rewrite !count_cons, !count_app. cbn [is_post is_predict].
      destruct (posted_warning st); cbn; lia.
    + destruct (posted_warning st); cbn; lia.
    + cbn. lia.
  - rewrite bool_decide_eq_false_2 by (by intros [? ?]). rewrite !trace_of_mk.
    destruct (in_reopened i); cbn; lia.
Qed.

(** X6: over any run there are no more posts than detector calls, and
    no more detector calls than frames counted: the detector runs at
    most once per frame read and an envelope is posted at most once per
    detector call. *)
Theorem posts_le_predicts_le_frames cfg ins : forall st,
  let r := main_loop cfg ins st in
  (count is_post (trace_of r) <= count is_predict (trace_of r))%nat /\
  Z.of_nat (count is_predict (trace_of r))
  <= frame_count (state_of r) - frame_count st.
Proof.
  induction ins as [|i ins IH]; intros st; cbv zeta; [cbn; lia|].
  rewrite main_loop_cons.
  destruct (iteration_counts cfg i st) as [H1 H2].
  destruct (iteration cfg i st) as [[l1 s1] [[|]|c|e]];
    rewrite !trace_of_mk in H1; rewrite trace_of_mk, state_of_mk in H2;
    cbv beta iota zeta; rewrite ?trace_of_mk, ?state_of_mk, ?app_nil_r;
    [|lia..].
  destruct (IH s1) as [H3 H4]. rewrite !count_app. lia.
Qed.

Lemma detection_cycle_flip cfg i fr st :
  state_of (detection_cycle cfg (flip_post_ok i) fr st)
  = state_of (detection_cycle cfg i fr st) /\
  (detection_cycle cfg (flip_post_ok i) fr st).2 = (detection_cycle cfg i fr st).2 /\
  count is_post (trace_of (detection_cycle cfg (flip_post_ok i) fr st))
  = count is_post (trace_of (detection_cycle cfg i fr st)).
Proof.
  rewrite !detection_cycle_run.
  change (detection_tmp_of cfg (flip_post_ok i)) with (detection_tmp_of cfg i).
  change (in_results (flip_post_ok i)) with (in_results i).
  change (in_time_stamp (flip_post_ok i)) with (in_time_stamp i).
  change (in_post_ok (flip_post_ok i)) with (negb (in_post_ok i)).
  destruct (config_entry cfg "robot" _); [|done].
  destruct (config_entry cfg "camera" _); [|done].
  destruct (if bool_decide _ then _ else _); [|done].
  destruct (config_entry cfg "confidence" _); [|done].
  destruct (detection _ _ _ _ _ _).2 as [[json bb]|c|e]; [|done..].
  cbv zeta. destruct (negb (_ =? _)); [|done].
  rewrite !trace_of_mk, !state_of_mk. cbn [snd].
  by destruct (in_post_ok i).
Qed.

Lemma iteration_flip cfg i st :
  state_of (iteration cfg (flip_post_ok i) st) = state_of (iteration cfg i st) /\
  (iteration cfg (flip_post_ok i) st).2 = (iteration cfg i st).2 /\
  count is_post (trace_of (iteration cfg (flip_post_ok i) st))
  = count is_post (trace_of (iteration cfg i st)).
Proof.
  rewrite !iteration_run.
  change (in_read (flip_post_ok i)) with (in_read i).
  change (due (flip_post_ok i) st) with (due i st).
  change (approved (flip_post_ok i)) with (approved i).
  change (in_pathname (flip_post_ok i)) with (in_pathname i).
  change (in_time_stamp (flip_post_ok i)) with (in_time_stamp i).
  change (in_reopened (flip_post_ok i)) with (in_reopened i).
  destruct (in_read i) as [fr|]; [|done].
  cbv zeta. destruct (due i st); [|done]. destruct (approved i); [|done].
  match goal with |- context [detection_cycle cfg i fr ?s] =>
    destruct (detection_cycle_flip cfg i fr s) as (H1 & H2 & H3)
  end.
  rewrite !trace_of_mk, !state_of_mk. cbn [snd].
  rewrite H1, H2, !count_cons, !count_app, H3. done.
Qed.

(** X7: whether a POST succeeds or fails changes nothing but the line
    that is printed: the locals after the run (the cadence among them),
    the way the run ends and the number of POSTs are the same, so a
    failed POST is not repeated. *)
Theorem failed_post_changes_nothing cfg ins ins' : forall st,
  Forall2 (fun i j => j = i \/ j = flip_post_ok i) ins ins' ->
  state_of (main_loop cfg ins' st) = state_of (main_loop cfg ins st) /\
  (main_loop cfg ins' st).2 = (main_loop cfg ins st).2 /\
  count is_post (trace_of (main_loop cfg ins' st))
  = count is_post (trace_of (main_loop cfg ins st)).
Proof.
  intros st H. revert st.
  induction H as [|i j ins ins' Hij Hrest IH]; intros st; [done|].
  rewrite !main_loop_cons.
  assert (Hi : state_of (iteration cfg j st) = state_of (iteration cfg i st) /\
               (iteration cfg j st).2 = (iteration cfg i st).2 /\
               count is_post (trace_of (iteration cfg j st))
               = count is_post (trace_of (iteration cfg i st))).
  { destruct Hij as [->| ->]; [done|apply iteration_flip]. }
  destruct (iteration cfg j st) as [[lj sj] oj],
           (iteration cfg i st) as [[li si] oi].
  rewrite !trace_of_mk, !state_of_mk in Hi. cbn [snd] in Hi.
  destruct Hi as (-> & -> & Hc).
  destruct oi as [[|]|c|e]; cbv beta iota zeta;
    rewrite ?trace_of_mk, ?state_of_mk; cbn [snd];
    rewrite ?count_app, ?Hc; [|done..].
  destruct (IH si) as (-> & -> & ->). done.
Qed.

(** The sample pass with a POST that fails: the cadence is 15 all the
    same. *)
Lemma failed_post_changes_nothing_witness :
  let cfg := sample_settings "person" in
  let i := sample_pass "a" 104 in
  let st := initial_state (Finite 100 0) in
  Forall2 (fun i j => j = i \/ j = flip_post_ok i) [i] [flip_post_ok i] /\
  state_of (main_loop cfg [flip_post_ok i] st) = state_of (main_loop cfg [i] st) /\
  detection_period (state_of (main_loop cfg [flip_post_ok i] st)) = 15.
Proof.
  intros cfg i st.
  assert (H : Forall2 (fun i j => j = i \/ j = flip_post_ok i) [i] [flip_post_ok i])
    by (repeat constructor; by right).
  split; [exact H|].
  split; [exact (proj1 (failed_post_changes_nothing cfg _ _ st H))|].
  by vm_compute.
Defined.

(** * How a run can end *)



Section ArithmeticOnly.
Context {S : Type}.
Implicit Types (s : S) (fr : frame) (acc : list pyval * list (list Z)).






End ArithmeticOnly.








(** * Frames without pixels and answers without boxes *)

Section EdgeFrames.
Context {S : Type}.
Implicit Types (s : S) (fr : frame) (acc : list pyval * list (list Z)).

Lemma detection_results_no_boxes fr results : forall acc s,
  all_boxes results = [] ->
  detection_results fr acc results s = ([], s, Done acc).
Proof.
  induction results as [|res results IH]; intros acc s Hnil; [done|].
  unfold all_boxes in Hnil. cbn [map concat] in Hnil.
  apply app_eq_nil in Hnil as [Hres Hrest].
  cbn [detection_results]. unfold bind at 1.
  destruct (boxes res) as [bs|]; cbn in Hres.
  - subst bs. cbn. by rewrite (IH acc s Hrest).
  - cbn. by rewrite (IH acc s Hrest).
Qed.

Lemma detection_box_zero_frame fr acc b s :
  frame_height fr * frame_width fr = 0 ->
  is_finite (rx1 b) && is_finite (ry1 b) && is_finite (rx2 b)
    && is_finite (ry2 b) = true ->
  detection_box fr acc b s = ([], s, Raise ZeroDivisionError).
Proof.
  intros Hz Hb. rewrite !andb_true_iff in Hb.
  destruct Hb as [[[H1 H2] H3] H4].
  unfold detection_box, bind, lift.
  rewrite !int_of_float_finite by assumption.
  rewrite Hz. unfold int_true_divide. done.
Qed.

Lemma detection_results_zero_frame fr results : forall acc s b bs,
  frame_height fr * frame_width fr = 0 ->
  all_boxes results = b :: bs ->
  is_finite (rx1 b) && is_finite (ry1 b) && is_finite (rx2 b)
    && is_finite (ry2 b) = true ->
  detection_results fr acc results s = ([], s, Raise ZeroDivisionError).
Proof.
  induction results as [|res results IH]; intros acc s b bs Hz Hall Hb; [done|].
  unfold all_boxes in Hall. cbn [map concat] in Hall.
  cbn [detection_results]. unfold bind at 1.
  destruct (boxes res) as [[|b' bs']|]; cbn in Hall.
  - cbn. by rewrite (IH acc s b bs Hz Hall Hb).
  - injection Hall as -> _. cbn [detection_boxes]. unfold bind at 1.
    by rewrite (detection_box_zero_frame fr acc b s Hz Hb).
  - cbn. by rewrite (IH acc s b bs Hz Hall Hb).
Qed.

End EdgeFrames.

(** X10: when the detector finds no box, [detection] divides nothing:
    whatever the size of the frame, the pass posts nothing and sets the
    cadence to 7.  When the frame has no pixels and the detector still
    returns a box with finite coordinates, the area test divides by zero
    and the exception ends the pass, after the detector call and before
    any post. *)
Theorem frames_without_pixels cfg i st fr :
  in_read i = Some fr -> due i st = true -> approved i = true ->
  config_complete cfg ->
  (all_boxes (in_results i) = [] ->
   (iteration cfg i st).2 = Done Continue /\
   detection_period (state_of (iteration cfg i st)) = 7 /\
   count is_post (trace_of (iteration cfg i st)) = 0%nat)
  /\
  (forall b bs,
     frame_height fr * frame_width fr = 0 ->
     all_boxes (in_results i) = b :: bs ->
     is_finite (rx1 b) && is_finite (ry1 b) && is_finite (rx2 b)
       && is_finite (ry2 b) = true ->
     (iteration cfg i st).2 = Raise ZeroDivisionError /\
     count is_predict (trace_of (iteration cfg i st)) = 1%nat /\
     count is_post (trace_of (iteration cfg i st)) = 0%nat).
Proof.
  intros Hfr Hdue Happ (Hrobot & Hcamera & Hconf & Hcl).
  rewrite iteration_run, Hfr, Hdue, Happ. cbv zeta.
  rewrite !trace_of_mk, !state_of_mk. cbn [snd].
  rewrite detection_cycle_run.
  destruct Hrobot as [robot ->], Hcamera as [camera ->], Hconf as [conf ->].
  assert (exists cl, (if bool_decide (model_type cfg ∈ class_model_types)
                      then config_entry cfg "classes" (model_type cfg)
                      else Some (PList [PInt 0])) = Some cl) as [cl ->].
  { destruct (bool_decide _) eqn:Hl; [|by eexists].
    apply bool_decide_eq_true in Hl. destruct (Hcl Hl) as [cl ->]. by eexists. }
  split.
  - intros Hnil.
    match goal with |- context [detection ?rs fr ?j conf cl ?s] =>
      assert (Hd : (detection rs fr j conf cl s).2
                   = Done (<["bounding_box" := PList []]> j, []))
        by (unfold detection; unfold bind at 1; cbn [emit]; unfold bind at 1;
            by rewrite (detection_results_no_boxes fr _ ([], []) _ Hnil))
    end.
    rewrite Hd. cbv zeta.
    change (negb (Z.of_nat (length []) =? 0)) with false. cbv iota.
    rewrite !trace_of_mk, !state_of_mk. cbn [snd].
    rewrite !count_cons, !count_app.
    by destruct (posted_warning st).
  - intros b bs Hz Hall Hb.
    match goal with |- context [detection ?rs fr ?j conf cl ?s] =>
      assert (Hd : (detection rs fr j conf cl s).2 = Raise ZeroDivisionError)
        by (unfold detection; unfold bind at 1; cbn [emit]; unfold bind at 1;
            by rewrite (detection_results_zero_frame fr _ ([], []) _ b bs Hz Hall Hb))
    end.
    rewrite Hd. rewrite !trace_of_mk. cbn [snd].
    rewrite !count_cons, !count_app.
    by destruct (posted_warning st).
Qed.

(** A frame of 0 by 0 pixels with the box of the sample pass. *)
Lemma frames_without_pixels_witness :
  let cfg := sample_settings "person" in
  let i := {| in_pathname := PStr "a";
              in_read := Some {| frame_height := 0; frame_width := 0 |};
              in_time_check := Finite 104 0; in_time_stamp := Finite 104 0;
              in_now := "2024-01-01 00:00:00";
              in_results := in_results (sample_pass "a" 104);
              in_post_ok := true; in_reopened := true |} in
  (iteration cfg i (initial_state (Finite 100 0))).2 = Raise ZeroDivisionError.
Proof.
  intros cfg i.
  assert (Hcfg : config_complete cfg).
  { split; [|split; [|split]]; try intros _; vm_compute; eexists; reflexivity. }
  exact (proj1 (proj2 (frames_without_pixels cfg i (initial_state (Finite 100 0))
                         {| frame_height := 0; frame_width := 0 |}
                         eq_refl ltac:(by vm_compute) ltac:(by vm_compute) Hcfg)
                      _ _ eq_refl eq_refl eq_refl)).
Defined.

(** * The passes of the reader *)

Lemma truthy_dict_nonempty (d : gmap string pyval) k v :
  d !! k = Some v -> truthy (PDict d) = true.
Proof.
  intros H. cbn. rewrite bool_decide_eq_false_2; [done|].
  intros ->. by rewrite lookup_empty in H.
Qed.

(** One pass of the reader goes one of five ways. *)
Lemma reading_pass_cases interval reply r :
  pass_result interval r (reading_pass interval reply r).
Proof.
  unfold reading_pass. unfold bind at 1. unfold bind at 1.
  destruct reply as [|code body].
  { cbn. by apply (pass_failed _ _ LogRequestFailed). }
  unfold get_detection. unfold bind at 1. cbn [emit].
  destruct (code =? 200).
  2: { cbn. by apply (pass_failed _ _ (LogHttpError code)). }
  destruct body as [v|].
  2: { cbn. by apply (pass_failed _ _ LogJsonParseFailed). }
  destruct v as [|b|z|f|str|l|data]; try (cbn; apply pass_raised).
  destruct (py_eq_str _ _).
  2: { cbn. by apply (pass_failed _ _ LogServerError). }
  destruct (data !! "detection") as [det|].
  2: { cbn. by apply (pass_failed _ _ LogNoDetections). }
  cbn [ret app]. destruct (truthy det) eqn:Ht.
  2: { cbn. apply pass_skipped. }
  destruct det as [|b|z|f|str|l|d]; try discriminate Ht;
    try (cbn; apply pass_raised).
  unfold extract_pathname. unfold bind at 1. unfold bind at 1.
  cbn [emit modify]. unfold bind at 1. cbn [ret app].
  destruct (d !! "InPathName") as [id|] eqn:Hd.
  - change (default PNone (Some id)) with id.
    destruct (truthy id) eqn:Hid.
    + cbn -[truthy]. rewrite Hid. cbn. by apply (pass_stored _ _ d id).
    + cbn -[truthy]. rewrite Hid. cbn. by apply (pass_no_pathname _ _ d).
  - change (default PNone None) with PNone.
    cbn. by apply (pass_no_pathname _ _ d).
Qed.

(** A pass over a handled failure changes nothing and goes on. *)
Lemma reading_pass_transient interval reply r :
  transient_failure reply ->
  exists diag, is_diagnostic diag = true /\
    reading_pass interval reply r
    = ([CallGet; diag; CallSleep interval], r, Done tt).
Proof.
  intros [->|[diag H]].
  - by exists LogRequestFailed.
  - exists diag. split; [by destruct H|].
    unfold reading_pass. unfold bind at 1. unfold bind at 1.
    by rewrite (get_detection_rejected reply diag r H).
Qed.

Lemma reading_passes_cons interval reply replies r :
  running r = true ->
  reading_passes interval (reply :: replies) r =
    match reading_pass interval reply r with
    | (l1, r1, Done _) =>
        let res := reading_passes interval replies r1 in
        (l1 ++ trace_of res, state_of res, res.2)
    | (l1, r1, Exit c) => (l1, r1, Exit c)
    | (l1, r1, Raise e) => (l1, r1, Raise e)
    end.
Proof.
  intros Hrun. cbn [reading_passes]. unfold bind at 1, get. cbn [app].
  rewrite Hrun. unfold bind, trace_of, state_of.
  destruct (reading_pass interval reply r) as [[l1 r1] [[]|c|e]]; try done.
  by destruct (reading_passes interval replies r1) as [[??]?].
Qed.

(** X11: failed fetches never stop the reader and never touch what it
    holds: over replies that are transport failures, status codes other
    than 200, bodies that are not JSON, error statuses or replies
    without a detection, the reader polls once per reply, sleeps once
    after each, and its attributes are the same at the end. *)
Theorem reader_survives_failed_fetches interval replies : forall r,
  running r = true ->
  Forall transient_failure replies ->
  let res := reading_passes interval replies r in
  res.2 = Done tt /\ state_of res = r /\
  count is_get (trace_of res) = length replies /\
  count is_sleep (trace_of res) = length replies.
Proof.
  induction replies as [|reply replies IH]; intros r Hrun Hall; [done|].
  inversion_clear Hall as [|? ? Hreply Hrest]. cbv zeta.
  rewrite (reading_passes_cons _ _ _ _ Hrun).
  destruct (reading_pass_transient interval reply r Hreply) as (diag & Hd & ->).
  destruct (IH r Hrun Hrest) as (Ho & Hs & Hg & Hsl).
  cbv zeta. rewrite trace_of_mk, state_of_mk. cbn [snd].
  split; [done|]. split; [done|].
  rewrite !count_app, Hg, Hsl. rewrite !count_cons.
  assert (is_get diag = false /\ is_sleep diag = false) as [-> ->]
    by (destruct diag; done).
  split; cbn; done.
Qed.

(** A refused connection, a 503 and an error status in a row. *)
Lemma reader_survives_failed_fetches_witness :
  let replies := [TransportError; Reply 503 None;
                  Reply 200 (Some (PDict {[ "status" := PStr "error" ]}))] in
  running new_reader = true /\ Forall transient_failure replies /\
  state_of (reading_passes (PFloat (Finite 5 0)) replies new_reader) = new_reader.
Proof.
  intros replies.
  assert (Hall : Forall transient_failure replies).
  { apply Forall_cons_2; [by left|].
    apply Forall_cons_2; [right; eexists; by apply rejected_status_code|].
    apply Forall_cons_2; [right; eexists; by apply rejected_status_field|].
    apply Forall_nil_2. }
  split; [done|]. split; [exact Hall|].
  exact (proj1 (proj2 (reader_survives_failed_fetches _ replies new_reader
                         eq_refl Hall))).
Defined.

(** A pass over a reply that the code does not expect raises. *)
Lemma reading_pass_unexpected interval reply r :
  unexpected_reply reply ->
  reading_pass interval reply r = ([CallGet], r, Raise AttributeError).
Proof.
  intros [(v & -> & Hv)|(data & det & -> & Hs & Hd & Ht & Hdet)];
    unfold reading_pass; unfold bind at 1; unfold bind at 1;
    unfold get_detection; unfold bind at 1; cbn [emit].
  - by destruct v.
  - change (200 =? 200) with true. cbv iota. rewrite Hs, Hd. cbn [ret app].
    rewrite Ht. by destruct det.
Qed.

Lemma reading_passes_until_unexpected interval before reply rest r :
  running r = true ->
  Forall transient_failure before ->
  unexpected_reply reply ->
  exists tr,
    reading_passes interval before r = (tr, r, Done tt) /\
    reading_passes interval (before ++ reply :: rest) r
    = (tr ++ [CallGet], r, Raise AttributeError) /\
    count is_get tr = length before.
Proof.
  intros Hrun Hall Hbad.
  induction before as [|b before IH].
  - exists []. split; [done|]. cbn [app].
    rewrite (reading_passes_cons _ _ _ _ Hrun).
    by rewrite (reading_pass_unexpected _ _ _ Hbad).
  - inversion_clear Hall as [|? ? Hb Hrest].
    destruct (IH Hrest) as (tr & H1 & H2 & H3).
    destruct (reading_pass_transient interval b r Hb) as (diag & Hd & Hp).
    exists ([CallGet; diag; CallSleep interval] ++ tr).
    cbn [app]. rewrite !(reading_passes_cons _ _ _ _ Hrun), Hp.
    cbv beta iota zeta. rewrite H1, H2, !trace_of_mk, !state_of_mk. cbn [snd].
    split; [done|]. split; [done|].
    rewrite !count_cons, H3. by destruct diag.
Qed.

(** X12: a reply whose body is JSON but not an object, or whose
    detection is a true value that is not an object, ends the reader
    thread: after failed fetches that it survived, the pass over such a
    reply raises, the loop prints the error and that the thread stopped,
    and no later reply is fetched; what the reader holds stays as it
    was. *)
Theorem unexpected_reply_stops_reader interval before reply rest r :
  running r = true ->
  Forall transient_failure before ->
  unexpected_reply reply ->
  exists tr,
    reading_passes interval before r = (tr, r, Done tt) /\
    _reading_loop interval (before ++ reply :: rest) r
    = (LogReaderStarted :: tr
         ++ [CallGet; LogReaderError AttributeError; LogReaderStopped], r) /\
    count is_get (LogReaderStarted :: tr ++ [CallGet]) = S (length before).
Proof.
  intros Hrun Hall Hbad.
  destruct (reading_passes_until_unexpected interval before reply rest r
              Hrun Hall Hbad) as (tr & H1 & H2 & H3).
  exists tr. split; [done|]. split.
  - unfold _reading_loop. unfold bind at 1. cbn [emit]. rewrite H2.
    cbn [app]. by rewrite <- app_assoc.
  - rewrite count_cons, count_app, H3. cbn. lia.
Qed.

(** A body that is the JSON list [[]]. *)
Lemma unexpected_reply_stops_reader_witness :
  let reply := Reply 200 (Some (PList [])) in
  unexpected_reply reply /\
  _reading_loop (PFloat (Finite 5 0)) ([TransportError] ++ reply :: [sample_reply])
                new_reader
  = ([LogReaderStarted; CallGet; LogRequestFailed;
      CallSleep (PFloat (Finite 5 0)); CallGet;
      LogReaderError AttributeError; LogReaderStopped], new_reader).
Proof.
  intros reply.
  assert (Hbad : unexpected_reply reply) by (left; by eexists).
  split; [exact Hbad|].
  destruct (unexpected_reply_stops_reader (PFloat (Finite 5 0)) [TransportError]
              reply [sample_reply] new_reader eq_refl
              ltac:(apply Forall_cons_2; [by left|apply Forall_nil_2]) Hbad)
    as (tr & H1 & H2 & _).
  injection H1 as <-. exact H2.
Defined.

Lemma lock_balance_app tr1 : forall held tr2,
  lock_balance held (tr1 ++ tr2)
  = match lock_balance held tr1 with
    | Some held' => lock_balance held' tr2
    | None => None
    end.
Proof.
  induction tr1 as [|e tr1 IH]; intros held tr2; [done|].
  destruct e; cbn [app lock_balance]; try apply IH;
    destruct held; try done; apply IH.
Qed.

Lemma unlocked_accesses_app tr1 : forall held held' tr2,
  lock_balance held tr1 = Some held' ->
  unlocked_accesses held (tr1 ++ tr2)
  = unlocked_accesses held tr1 ++ unlocked_accesses held' tr2.
Proof.
  induction tr1 as [|e tr1 IH]; intros held held' tr2 Hb.
  - cbn in Hb. by injection Hb as ->.
  - destruct e; cbn [app lock_balance unlocked_accesses] in *;
      try (by apply IH); destruct held; try done;
      try (by apply IH); cbn [app]; f_equal; by apply IH.
Qed.

(** X13: whatever the server answers, the reader takes the lock and
    gives it back in turn, writes [last_detection] only while it holds
    the lock, and [last_detection] holds nothing or a detection object
    whose identifier is there and true. *)
Theorem reader_keeps_stored_detection interval replies : forall r,
  stored_detection_ok (last_detection r) ->
  let res := reading_passes interval replies r in
  stored_detection_ok (last_detection (state_of res)) /\
  lock_balance false (trace_of res) = Some false /\
  ~ In (WriteAttr "last_detection") (unlocked_accesses false (trace_of res)).
Proof.
  induction replies as [|reply replies IH]; intros r Hok; cbv zeta.
  - cbn. auto.
  - destruct (running r) eqn:Hrun.
    2: { assert (reading_passes interval (reply :: replies) r = ([], r, Done tt))
           as -> by (cbn [reading_passes]; unfold bind, get; by rewrite Hrun).
         cbn. auto. }
    rewrite (reading_passes_cons _ _ _ _ Hrun).
    pose proof (reading_pass_cases interval reply r) as Hcase.
    destruct (reading_pass interval reply r) as [[l1 r1] o].
    assert (Hpass : stored_detection_ok (last_detection r1) /\
                    lock_balance false l1 = Some false /\
                    ~ In (WriteAttr "last_detection") (unlocked_accesses false l1)).
    { inversion Hcase as [diag Hd| | |d id Hid|d id Hd Hid]; subst.
      - split; [done|]. destruct diag; try discriminate Hd; cbn; intuition discriminate.
      - cbn. intuition discriminate.
      - cbn. intuition discriminate.
      - cbn. intuition discriminate.
      - split; [right; by exists d, id|]. cbn. intuition discriminate. }
    destruct Hpass as (Hok1 & Hb1 & Hu1).
    destruct o as [[]|c|e]; cbv beta iota zeta;
      [|by rewrite trace_of_mk, state_of_mk..].
    destruct (IH r1 Hok1) as (Hok2 & Hb2 & Hu2).
    destruct (reading_passes interval replies r1) as [[l2 r2] o2].
    rewrite ?trace_of_mk, ?state_of_mk in Hok2.
    rewrite ?trace_of_mk, ?state_of_mk in Hb2.
    rewrite ?trace_of_mk, ?state_of_mk in Hu2.
    rewrite ?trace_of_mk, ?state_of_mk.
    split; [done|]. split.
    + by rewrite lock_balance_app, Hb1.
    + rewrite (unlocked_accesses_app _ _ _ _ Hb1). intros Hin.
      apply in_app_or in Hin as [Hin|Hin]; auto.
Qed.

(** From a new reader, over a reply that names a location and one that
    does not. *)
Lemma reader_keeps_stored_detection_witness :
  let replies := [sample_reply; empty_detection_reply] in
  stored_detection_ok (last_detection new_reader) /\
  stored_detection_ok
    (last_detection (state_of (reading_passes (PFloat (Finite 5 0)) replies
                                              new_reader))).
Proof.
  intros replies.
  assert (H : stored_detection_ok (last_detection new_reader)) by (by left).
  split; [exact H|].
  exact (proj1 (reader_keeps_stored_detection _ replies new_reader H)).
Defined.

(** X14: a reply with a detection object whose identifier is there and
    true is stored: after the pass, [get_last_detection] returns that
    detection object, the shared pathname is its identifier, and the
    reader is still running. *)
Theorem stored_detection_is_read_back interval reply d id r :
  located_reply reply d id ->
  let r' := state_of (reading_pass interval reply r) in
  (reading_pass interval reply r).2 = Done tt /\
  (get_last_detection r').2 = Done (PDict d) /\
  state_of (get_last_detection r') = r' /\
  pathname r' = id /\ running r' = running r.
Proof.
  intros (data & -> & Hs & Hd & Hid & Ht). cbv zeta.
  assert (Hp : reading_pass interval (Reply 200 (Some (PDict data))) r
               = ([CallGet; WriteAttr "pathname"; LockAcquire;
                   WriteAttr "last_detection"; LockRelease; CallSleep interval],
                  set_last_detection (PDict d) (set_pathname id r), Done tt)).
  { unfold reading_pass, get_detection. unfold bind, emit, ret.
    change (200 =? 200) with true. cbv iota. rewrite Hs, Hd.
    rewrite (truthy_dict_nonempty d _ _ Hid).
    unfold extract_pathname, bind, emit, modify, ret. rewrite Hid.
    change (default PNone (Some id)) with id. rewrite Ht. reflexivity. }
  rewrite Hp, state_of_mk. done.
Qed.

(** The sample reply names the location "a". *)
Lemma stored_detection_is_read_back_witness :
  let d : gmap string pyval := {[ "InPathName" := PStr "a" ]} in
  located_reply sample_reply d (PStr "a") /\
  (get_last_detection
     (state_of (reading_pass (PFloat (Finite 5 0)) sample_reply new_reader))).2
  = Done (PDict d).
Proof.
  intros d.
  assert (H : located_reply sample_reply d (PStr "a")).
  { eexists. split; [reflexivity|]. by vm_compute. }
  split; [exact H|].
  exact (proj1 (proj2 (stored_detection_is_read_back (PFloat (Finite 5 0))
                         sample_reply d (PStr "a") new_reader H))).
Defined.

(** * The constructor and the life cycle of the reader *)

Lemma rstrip_slash_all_slashes t :
  all_slashes t = true -> rstrip_slash t = EmptyString.
Proof.
  induction t as [|c t IH]; [done|]. cbn. intros H.
  apply andb_true_iff in H as [Hc Ht]. by rewrite (IH Ht), Hc.
Qed.

Lemma rstrip_slash_app s t :
  all_slashes t = true -> rstrip_slash (s ++ t) = rstrip_slash s.
Proof.
  intros Ht. induction s as [|c s IH].
  - by apply rstrip_slash_all_slashes.
  - change (rstrip_slash (String c (s ++ t)) = rstrip_slash (String c s)).
    cbn [rstrip_slash]. by rewrite IH.
Qed.

Lemma rstrip_slash_split s :
  exists t, all_slashes t = true /\ s = (rstrip_slash s ++ t)%string.
Proof.
  induction s as [|c s (t & Ht & Hs)]; [by exists EmptyString|].
  cbn [rstrip_slash]. destruct (rstrip_slash s) as [|a r] eqn:Hr.
  - change (s = t) in Hs. subst t. destruct (Ascii.eqb c slash) eqn:Hc.
    + exists (String c s). cbn [all_slashes]. by rewrite Hc, Ht.
    + by exists s.
  - exists t. split; [done|].
    change (String c s = String c (String a r ++ t)). by rewrite <- Hs.
Qed.

Lemma rstrip_slash_no_trailing s : forall u,
  rstrip_slash s <> (u ++ String slash EmptyString)%string.
Proof.
  induction s as [|c s IH]; intros u.
  - cbn. by destruct u.
  - cbn. destruct (rstrip_slash s) as [|a r] eqn:Hr.
    + destruct (Ascii.eqb c slash) eqn:Hc.
      * by destruct u.
      * destruct u as [|c' u]; cbn.
        -- intros [= ->]. by rewrite Ascii.eqb_refl in Hc.
        -- intros [= _ H]. by destruct u.
    + destruct u as [|c' u]; cbn.
      * intros [= _ H].
      * intros [= _ H]. by apply (IH u).
Qed.

(** X15: the constructor drops the trailing slashes of the server URL,
    all of them and nothing else, so that the endpoint is the same
    however many slashes the URL ends with, and is the URL without them
    followed by "/api/detections". *)
Theorem endpoint_ignores_trailing_slashes url interval auto_start :
  (forall t, all_slashes t = true ->
     init_reader (url ++ t) interval auto_start
     = init_reader url interval auto_start)
  /\
  (exists base t,
     endpoint (init_reader url interval auto_start).2
       = (base ++ "/api/detections")%string /\
     server_url (init_reader url interval auto_start).2 = base /\
     url = (base ++ t)%string /\ all_slashes t = true /\
     forall u, base <> (u ++ String slash EmptyString)%string).
Proof.
  split.
  - intros t Ht. unfold init_reader. by rewrite (rstrip_slash_app url t Ht).
  - destruct (rstrip_slash_split url) as (t & Ht & Hurl).
    exists (rstrip_slash url), t.
    assert (Hh : endpoint (init_reader url interval auto_start).2
                 = (rstrip_slash url ++ "/api/detections")%string /\
                 server_url (init_reader url interval auto_start).2
                 = rstrip_slash url)
      by (unfold init_reader, start_reading; by destruct auto_start).
    destruct Hh as [-> ->].
    split; [done|]. split; [done|]. split; [done|]. split; [done|].
    apply rstrip_slash_no_trailing.
Qed.

(** The URL of the script with two slashes added. *)
Lemma endpoint_ignores_trailing_slashes_witness :
  all_slashes "//" = true /\
  init_reader ("http://43.199.222.97:8081" ++ "//") (PFloat (Finite 5 0)) true
  = init_reader "http://43.199.222.97:8081" (PFloat (Finite 5 0)) true.
Proof.
  split; [reflexivity|].
  exact (proj1 (endpoint_ignores_trailing_slashes "http://43.199.222.97:8081"
                  (PFloat (Finite 5 0)) true) "//" eq_refl).
Defined.

Lemma lifecycle_step_balance c h :
  let l := (lifecycle_step c h).1 in
  let h' := (lifecycle_step c h).2 in
  (length (List.filter is_thread_start l)
   + (if running (attrs h) then 1 else 0)
   = length (List.filter is_stopping l)
     + (if running (attrs h') then 1 else 0))%nat /\
  endpoint h' = endpoint h /\ server_url h' = server_url h /\
  poll_interval h' = poll_interval h /\
  last_detection (attrs h') = last_detection (attrs h) /\
  pathname (attrs h') = pathname (attrs h).
Proof.
  destruct c as [|alive|alive]; cbn [lifecycle_step];
    unfold cleanup, stop_reading, start_reading;
    destruct (running (attrs h)) eqn:Hrun; cbn;
    try destruct (has_thread h && alive); cbn; rewrite ?Hrun; done.
Qed.

(** X16: over any sequence of calls of [start_reading], [stop_reading]
    and [cleanup] on a reader, starting a running reader and stopping a
    stopped one do nothing, so that the number of threads started plus
    one if the reader was running equals the number of stops that took
    effect plus one if it is running at the end; and the calls change
    neither the endpoint nor the stored detection nor the pathname. *)
Theorem lifecycle_keeps_one_thread cs : forall h,
  let l := (lifecycle_run cs h).1 in
  let h' := (lifecycle_run cs h).2 in
  (length (List.filter is_thread_start l)
   + (if running (attrs h) then 1 else 0)
   = length (List.filter is_stopping l)
     + (if running (attrs h') then 1 else 0))%nat /\
  endpoint h' = endpoint h /\ server_url h' = server_url h /\
  poll_interval h' = poll_interval h /\
  last_detection (attrs h') = last_detection (attrs h) /\
  pathname (attrs h') = pathname (attrs h).
Proof.
  induction cs as [|c cs IH]; intros h; cbv zeta; [done|].
  cbn [lifecycle_run].
  pose proof (lifecycle_step_balance c h) as Hs. cbv zeta in Hs.
  destruct (lifecycle_step c h) as [l1 h1]. cbn [fst snd] in Hs.
  specialize (IH h1). cbv zeta in IH.
  destruct (lifecycle_run cs h1) as [l2 h2]. cbn [fst snd] in *.
  destruct Hs as (Hs1 & Hs2 & Hs3 & Hs4 & Hs5 & Hs6).
  destruct IH as (H1 & H2 & H3 & H4 & H5 & H6).
  rewrite !List.filter_app, !length_app.
  split; [lia|]. split; [congruence|]. split; [congruence|].
  split; [congruence|]. split; congruence.
Qed.

(** * [get_config] *)



(** * Boxes without area *)

Lemma filter_all_true {A} (P : A -> Prop) `{!forall x, Decision (P x)} (l : list A) :
  Forall P l -> filter P l = l.
Proof.
  induction 1 as [|x l Hx Hl IH]; [done|].
  rewrite filter_cons, decide_True by done. by rewrite IH.
Qed.

(** X18: [detection] does not ask that a box has a positive area: in a
    well-formed frame, boxes whose corners coincide or are the wrong
    way round, so that [(x2 - x1) * (y2 - y1)] is zero or negative, all
    pass the area test and are written to the envelope. *)
Theorem boxes_without_area_are_kept {S : Type} results fr json_tmp conf cl (s : S) :
  frame_ok fr = true ->
  Forall (fun b => box_ok b = true) (all_boxes results) ->
  Forall (fun b => box_area (truncate_box b) <= 0) (all_boxes results) ->
  (detection results fr json_tmp conf cl s).2
  = Done (<["bounding_box" :=
              PList (map entry_of (map truncate_box (all_boxes results)))]>
            json_tmp,
          map coords_of (map truncate_box (all_boxes results))).
Proof.
  intros Hfr Hbs Hneg. unfold detection, bind, emit.
  rewrite (detection_results_ok fr results ([], []) s Hfr Hbs).
  rewrite filter_all_true; [done|].
  apply Forall_map. apply (Forall_impl _ _ _ Hneg). intros b Hb.
  unfold below_nine_tenths. apply Z.ltb_lt.
  apply frame_ok_bounds in Hfr. cbv beta in Hb. lia.
Qed.

(** A box from (5, 5) to (5, 9), with no width, and a box from (9, 9)
    to (3, 12), the wrong way round. *)
Lemma boxes_without_area_are_kept_witness :
  let fr := {| frame_height := 480; frame_width := 640 |} in
  let flat := {| rx1 := Finite 5 0; ry1 := Finite 5 0;
                 rx2 := Finite 5 0; ry2 := Finite 9 0 |} in
  let turned := {| rx1 := Finite 9 0; ry1 := Finite 9 0;
                   rx2 := Finite 3 0; ry2 := Finite 12 0 |} in
  (detection [ {| boxes := Some [flat; turned] |} ] fr ∅ PNone PNone tt).2
  = Done (<["bounding_box" := PList [box_entry 5 5 5 9; box_entry 9 9 3 12]]> ∅,
          [[5; 5; 5; 9]; [9; 3; 9; 12]]).
Proof.
  intros fr flat turned.
  apply (boxes_without_area_are_kept [ {| boxes := Some [flat; turned] |} ] fr
           ∅ PNone PNone tt).
  - reflexivity.
  - apply Forall_cons_2; [reflexivity|]. apply Forall_cons_2; [reflexivity|].
    apply Forall_nil_2.
  - apply Forall_cons_2; [by vm_compute|]. apply Forall_cons_2; [by vm_compute|].
    apply Forall_nil_2.
Defined.

(** * Stopping the reader *)


